(** * The invocation context of the commands extension

    A shallow embedding of [discord/ext/commands/context.py]: the [Context]
    object, its constructor, its derived properties, [clean_prefix],
    [reinvoke], [send_help], [send] and [reply], together with the
    properties of these operations.

    Python objects are kept in an explicit store.  The objects the context
    only talks to (the command, the channel, the interaction, the help
    command, the string view's tokenizer) are not part of this file of the
    library: they are a class of collaborators, and every operation is
    stated for all of them.  A call to a collaborator is recorded in a trace
    before the collaborator runs on the store. *)

From Stdlib Require Import ZArith Lia Ascii String.
From stdpp Require Import base option list gmap strings pretty.

Local Open Scope Z_scope.
Local Open Scope string_scope.
Local Open Scope list_scope.

(** ** Values, exceptions, objects *)

(** Identity of a Python object; [is] is equality of identities. *)
Definition objid := positive.

(** Address of a mutable object kept in the store. *)
Definition loc := positive.

(** The Python values that travel through [send]: contents, options,
    results.  [PObj] is a reference to an object. *)
Inductive pyval :=
| PNone
| PBool (b : bool)
| PInt (z : Z)
| PStr (s : string)
| PObj (o : objid).

(** Keyword options, [**kwargs]. *)
Abbreviation kwargs_t := (gmap string pyval).

(** Exceptions, by the classes the source tells apart: [ValueError] is raised
    by [reinvoke], [TypeError] by a call that binds a keyword twice,
    [CommandError] stands for any instance of [commands.CommandError] or of a
    subclass, [OtherError] for any exception object that is not one
    (a [RuntimeError], say). *)
Inductive exn :=
| ValueError (msg : string)
| TypeError (msg : string)
| CommandError (e : objid)
| OtherError (e : objid).

(** [except CommandError] *)
Definition is_CommandError (e : exn) : bool :=
  match e with
  | CommandError _ => true
  | _ => false
  end.

(** A command object, by identity. *)
Definition Command := objid.

(** What [isinstance(entity, Group)] and [isinstance(entity, Command)] see;
    [Group] is a subclass of [Command]. *)
Inductive command_class := NotCommand | PlainCommand | GroupCommand.

(** An object handed to [send_help], by what the function probes:
    the attribute [qualified_name] (absent: [AttributeError]), the marker
    [__cog_commands__], and the two [isinstance] tests. *)
Record pyobject := {
  obj_id : objid;
  qualified_name : option string;
  has_cog_commands : bool;
  obj_class : command_class;
}.

(** The positional argument of [send_help]. *)
Inductive entity :=
| EntityStr (s : string)
| EntityNone
| EntityObj (o : pyobject).

(** ** The store *)

(** [StringView]: the cursor into the invocation text. *)
Record StringView := {
  index : Z;
  previous : Z;
  buffer : string;
}.

(** [interaction.response]: [responded_at] in microseconds since the epoch,
    and what [is_done()] answers. *)
Record InteractionResponse := {
  responded_at : option Z;
  done : bool;
}.

Record Interaction := {
  interaction_id : objid;
  response : InteractionResponse;
}.

(** The attributes of [Context]; [message], [command] and the like are
    references.  [invoked_parents] is the address of a list object.  The last
    four fields are the instance attributes that [cached_property] writes. *)
Record Context := {
  self_id : objid;
  message : objid;
  args : list pyval;
  kwargs : kwargs_t;
  prefix : option string;
  command : option Command;
  invoked_with : option string;
  invoked_parents : loc;
  invoked_subcommand : option Command;
  subcommand_passed : option string;
  command_failed : bool;
  current_parameter : option objid;
  interaction : option Interaction;
  guild_attr : option (option objid);
  channel_attr : option objid;
  author_attr : option objid;
  me_attr : option pyval;
}.

(** The live state of the message the context was built for. *)
Record MessageState := {
  msg_guild : option objid;
  msg_channel : objid;
  msg_author : objid;
}.

(** A help command object: its [context] attribute and the rest. *)
Record HelpCommand := {
  hc_context : option objid;
  hc_attrs : kwargs_t;
}.

Record Bot := {
  user : pyval;
  help_command : option loc;
}.

(** Everything the context and its collaborators can read and write:
    the context, the view object [self.view] refers to, the list objects,
    the bot, the help command objects, the message, [Guild.me] for each
    guild, and the clock read by [discord.utils.utcnow()] (microseconds). *)
Record World := {
  ctx : Context;
  view : StringView;
  lists : gmap loc (list string);
  bot : Bot;
  help_commands : gmap loc HelpCommand;
  msg : MessageState;
  guild_me : gmap objid pyval;
  clock : Z;
}.

(** A call that leaves this file. *)
Inductive event :=
| CallCommandReinvoke (to_call : Command) (call_hooks : bool)
| CallMessageableSend (content : pyval) (kw : kwargs_t)
| CallResponseSendMessage (content ephemeral : pyval) (kw : kwargs_t)
| CallResponseDefer (ephemeral : pyval)
| CallFollowupSend (content ephemeral : pyval) (kw : kwargs_t)
| CallHelpCopy (h : loc)
| CallPrepareHelpCommand (c : loc) (name : option string)
| CallGetBotMapping (c : loc)
| CallInjectedSendBotHelp (c : loc) (mapping : pyval)
| CallInjectedSendCogHelp (c : loc) (e : pyobject)
| CallInjectedSendGroupHelp (c : loc) (e : pyobject)
| CallInjectedSendCommandHelp (c : loc) (e : pyobject)
| CallOnHelpCommandError (c : loc) (e : exn).

(** The machine state: the store and the calls made so far. *)
Record St := {
  world : World;
  trace : list event;
}.

(** ** Record updates *)

Definition set_view_index (i : Z) (w : World) : World :=
  {| ctx := ctx w;
     view := {| index := i; previous := previous (view w); buffer := buffer (view w) |};
     lists := lists w; bot := bot w; help_commands := help_commands w;
     msg := msg w; guild_me := guild_me w; clock := clock w |}.

Definition set_view_previous (p : Z) (w : World) : World :=
  {| ctx := ctx w;
     view := {| index := index (view w); previous := p; buffer := buffer (view w) |};
     lists := lists w; bot := bot w; help_commands := help_commands w;
     msg := msg w; guild_me := guild_me w; clock := clock w |}.

Definition set_view (v : StringView) (w : World) : World :=
  {| ctx := ctx w; view := v;
     lists := lists w; bot := bot w; help_commands := help_commands w;
     msg := msg w; guild_me := guild_me w; clock := clock w |}.

Definition set_ctx (c : Context) (w : World) : World :=
  {| ctx := c; view := view w;
     lists := lists w; bot := bot w; help_commands := help_commands w;
     msg := msg w; guild_me := guild_me w; clock := clock w |}.

Definition set_lists (l : gmap loc (list string)) (w : World) : World :=
  {| ctx := ctx w; view := view w;
     lists := l; bot := bot w; help_commands := help_commands w;
     msg := msg w; guild_me := guild_me w; clock := clock w |}.

Definition set_help_commands (h : gmap loc HelpCommand) (w : World) : World :=
  {| ctx := ctx w; view := view w;
     lists := lists w; bot := bot w; help_commands := h;
     msg := msg w; guild_me := guild_me w; clock := clock w |}.

Definition set_msg (m : MessageState) (w : World) : World :=
  {| ctx := ctx w; view := view w;
     lists := lists w; bot := bot w; help_commands := help_commands w;
     msg := m; guild_me := guild_me w; clock := clock w |}.

Definition set_command (c : option Command) (x : Context) : Context :=
  {| self_id := self_id x; message := message x; args := args x; kwargs := kwargs x;
     prefix := prefix x; command := c; invoked_with := invoked_with x;
     invoked_parents := invoked_parents x; invoked_subcommand := invoked_subcommand x;
     subcommand_passed := subcommand_passed x; command_failed := command_failed x;
     current_parameter := current_parameter x; interaction := interaction x;
     guild_attr := guild_attr x; channel_attr := channel_attr x;
     author_attr := author_attr x; me_attr := me_attr x |}.

Definition set_invoked_with (v : option string) (x : Context) : Context :=
  {| self_id := self_id x; message := message x; args := args x; kwargs := kwargs x;
     prefix := prefix x; command := command x; invoked_with := v;
     invoked_parents := invoked_parents x; invoked_subcommand := invoked_subcommand x;
     subcommand_passed := subcommand_passed x; command_failed := command_failed x;
     current_parameter := current_parameter x; interaction := interaction x;
     guild_attr := guild_attr x; channel_attr := channel_attr x;
     author_attr := author_attr x; me_attr := me_attr x |}.

Definition set_invoked_parents (v : loc) (x : Context) : Context :=
  {| self_id := self_id x; message := message x; args := args x; kwargs := kwargs x;
     prefix := prefix x; command := command x; invoked_with := invoked_with x;
     invoked_parents := v; invoked_subcommand := invoked_subcommand x;
     subcommand_passed := subcommand_passed x; command_failed := command_failed x;
     current_parameter := current_parameter x; interaction := interaction x;
     guild_attr := guild_attr x; channel_attr := channel_attr x;
     author_attr := author_attr x; me_attr := me_attr x |}.

Definition set_invoked_subcommand (v : option Command) (x : Context) : Context :=
  {| self_id := self_id x; message := message x; args := args x; kwargs := kwargs x;
     prefix := prefix x; command := command x; invoked_with := invoked_with x;
     invoked_parents := invoked_parents x; invoked_subcommand := v;
     subcommand_passed := subcommand_passed x; command_failed := command_failed x;
     current_parameter := current_parameter x; interaction := interaction x;
     guild_attr := guild_attr x; channel_attr := channel_attr x;
     author_attr := author_attr x; me_attr := me_attr x |}.

Definition set_subcommand_passed (v : option string) (x : Context) : Context :=
  {| self_id := self_id x; message := message x; args := args x; kwargs := kwargs x;
     prefix := prefix x; command := command x; invoked_with := invoked_with x;
     invoked_parents := invoked_parents x; invoked_subcommand := invoked_subcommand x;
     subcommand_passed := v; command_failed := command_failed x;
     current_parameter := current_parameter x; interaction := interaction x;
     guild_attr := guild_attr x; channel_attr := channel_attr x;
     author_attr := author_attr x; me_attr := me_attr x |}.

Definition set_guild_attr (v : option objid) (x : Context) : Context :=
  {| self_id := self_id x; message := message x; args := args x; kwargs := kwargs x;
     prefix := prefix x; command := command x; invoked_with := invoked_with x;
     invoked_parents := invoked_parents x; invoked_subcommand := invoked_subcommand x;
     subcommand_passed := subcommand_passed x; command_failed := command_failed x;
     current_parameter := current_parameter x; interaction := interaction x;
     guild_attr := Some v; channel_attr := channel_attr x;
     author_attr := author_attr x; me_attr := me_attr x |}.

Definition set_channel_attr (v : objid) (x : Context) : Context :=
  {| self_id := self_id x; message := message x; args := args x; kwargs := kwargs x;
     prefix := prefix x; command := command x; invoked_with := invoked_with x;
     invoked_parents := invoked_parents x; invoked_subcommand := invoked_subcommand x;
     subcommand_passed := subcommand_passed x; command_failed := command_failed x;
     current_parameter := current_parameter x; interaction := interaction x;
     guild_attr := guild_attr x; channel_attr := Some v;
     author_attr := author_attr x; me_attr := me_attr x |}.

Definition set_author_attr (v : objid) (x : Context) : Context :=
  {| self_id := self_id x; message := message x; args := args x; kwargs := kwargs x;
     prefix := prefix x; command := command x; invoked_with := invoked_with x;
     invoked_parents := invoked_parents x; invoked_subcommand := invoked_subcommand x;
     subcommand_passed := subcommand_passed x; command_failed := command_failed x;
     current_parameter := current_parameter x; interaction := interaction x;
     guild_attr := guild_attr x; channel_attr := channel_attr x;
     author_attr := Some v; me_attr := me_attr x |}.

Definition set_me_attr (v : pyval) (x : Context) : Context :=
  {| self_id := self_id x; message := message x; args := args x; kwargs := kwargs x;
     prefix := prefix x; command := command x; invoked_with := invoked_with x;
     invoked_parents := invoked_parents x; invoked_subcommand := invoked_subcommand x;
     subcommand_passed := subcommand_passed x; command_failed := command_failed x;
     current_parameter := current_parameter x; interaction := interaction x;
     guild_attr := guild_attr x; channel_attr := channel_attr x;
     author_attr := author_attr x; me_attr := Some v |}.

(** ** The monad of the operations: state and exceptions *)

Inductive result (A : Type) :=
| Ok (a : A)
| Raise (e : exn).
Arguments Ok {A} a.
Arguments Raise {A} e.

Definition M (A : Type) : Type := St -> result A * St.

Definition ret {A} (a : A) : M A := fun s => (Ok a, s).

Definition raise {A} (e : exn) : M A := fun s => (Raise e, s).

Definition bind {A B} (m : M A) (k : A -> M B) : M B :=
  fun s =>
    match m s with
    | (Ok a, s1) => k a s1
    | (Raise e, s1) => (Raise e, s1)
    end.

(** [try: body finally: fin]: [fin] runs on both exits of [body]; an
    exception of [fin] replaces the outcome of [body]. *)
Definition try_finally {A} (body : M A) (fin : M unit) : M A :=
  fun s =>
    match body s with
    | (r, s1) =>
        match fin s1 with
        | (Ok _, s2) => (r, s2)
        | (Raise e, s2) => (Raise e, s2)
        end
    end.

(** [try: body except CommandError as e: handler e] *)
Definition try_except_CommandError {A} (body : M A) (handler : exn -> M A) : M A :=
  fun s =>
    match body s with
    | (Ok a, s1) => (Ok a, s1)
    | (Raise e, s1) => if is_CommandError e then handler e s1 else (Raise e, s1)
    end.

(** Reading and writing the store. *)
Definition gets {A} (f : World -> A) : M A := fun s => (Ok (f (world s)), s).

Definition modify (f : World -> World) : M unit :=
  fun s => (Ok tt, {| world := f (world s); trace := trace s |}).

Definition modify_ctx (f : Context -> Context) : M unit :=
  modify (fun w => set_ctx (f (ctx w)) w).

(** A call to a collaborator: the call is recorded, then the collaborator
    runs on the store. *)
Definition call {A} (ev : event) (h : World -> result A * World) : M A :=
  fun s =>
    match h (world s) with
    | (r, w1) => (r, {| world := w1; trace := trace s ++ [ev] |})
    end.

Declare Scope ctx_scope.
Delimit Scope ctx_scope with ctx.
Notation "x <- m ;; k" := (bind m (fun x => k))
  (at level 100, m at next level, right associativity) : ctx_scope.
Notation "m ;;; k" := (bind m (fun _ => k))
  (at level 100, right associativity) : ctx_scope.
Local Open Scope ctx_scope.

(** ** The collaborators *)

(** The interfaces the context consumes.  Each stateful one is a function on
    the store that returns or raises. *)
Class Collaborators := {
  (** [StringView.get_word()]: reads a word and moves the cursor. *)
  get_word : StringView -> string * StringView;
  (** [Command.root_parent] *)
  root_parent : Command -> option Command;
  (** [await Command.reinvoke(ctx, call_hooks=...)] *)
  command_reinvoke : Command -> bool -> World -> result unit * World;
  (** [await discord.abc.Messageable.send(ctx, content, **kwargs)] *)
  messageable_send : pyval -> kwargs_t -> World -> result pyval * World;
  (** [await interaction.response.send_message(content, ephemeral=..., **kwargs)] *)
  response_send_message : pyval -> pyval -> kwargs_t -> World -> result pyval * World;
  (** [await interaction.response.defer(ephemeral=...)] *)
  response_defer : pyval -> World -> result unit * World;
  (** [await interaction.followup.send(content, ephemeral=..., **kwargs)] *)
  followup_send : pyval -> pyval -> kwargs_t -> World -> result pyval * World;
  (** [bot.get_cog(name)], [bot.get_command(name)] *)
  get_cog : World -> string -> option pyobject;
  get_command : World -> string -> option pyobject;
  (** [HelpCommand.copy()] *)
  help_copy : loc -> World -> result loc * World;
  (** [await cmd.prepare_help_command(ctx, name)] *)
  prepare_help_command : loc -> option string -> World -> result unit * World;
  (** [cmd.get_bot_mapping()] *)
  get_bot_mapping : loc -> World -> result pyval * World;
  (** [await wrap_callback(cmd.send_bot_help)(mapping)] and its three
      siblings: the wrapped coroutine, as it behaves when awaited. *)
  injected_send_bot_help : loc -> pyval -> World -> result pyval * World;
  injected_send_cog_help : loc -> pyobject -> World -> result pyval * World;
  injected_send_group_help : loc -> pyobject -> World -> result pyval * World;
  injected_send_command_help : loc -> pyobject -> World -> result pyval * World;
  (** [await cmd.on_help_command_error(ctx, e)] *)
  on_help_command_error : loc -> exn -> World -> result unit * World;
}.

Section Operations.

Context `{Collaborators}.

(** ** [Context.reinvoke] *)

(** [self.invoked_parents = []]: a new list object. *)
Definition new_list (w : World) : loc := fresh (dom (lists w)).

Definition alloc_list (l : list string) : M loc :=
  fun s =>
    let a := new_list (world s) in
    (Ok a, {| world := set_lists (<[a := l]> (lists (world s))) (world s);
              trace := trace s |}).

(** [len(self.prefix or "")] *)
Definition prefix_length (p : option string) : Z :=
  match p with
  | None => 0
  | Some s => Z.of_nat (String.length s)
  end.

(** [cmd.root_parent or cmd] *)
Definition root_or_self (cmd : Command) : Command :=
  match root_parent cmd with
  | Some r => r
  | None => cmd
  end.

(** [self.invoked_with = view.get_word()] *)
Definition read_invoked_with : M unit :=
  v <- gets view ;;
  let '(word, v') := get_word v in
  modify (set_view v') ;;;
  modify_ctx (set_invoked_with (Some word)).

(** The body of the [if restart:] statement; it yields [to_call]. *)
Definition restart_chain (cmd : Command) (restart : bool) : M Command :=
  if restart then
    p <- gets (fun w => prefix (ctx w)) ;;
    modify (set_view_index (prefix_length p)) ;;;
    modify (set_view_previous 0) ;;;
    a <- alloc_list [] ;;
    modify_ctx (set_invoked_parents a) ;;;
    read_invoked_with ;;;
    ret (root_or_self cmd)
  else
    ret cmd.

(** The [finally:] suite. *)
Definition revert_state (cmd : Command) (index0 previous0 : Z)
    (invoked_with0 : option string) (invoked_subcommand0 : option Command)
    (invoked_parents0 : loc) (subcommand_passed0 : option string) : M unit :=
  modify_ctx (set_command (Some cmd)) ;;;
  modify (set_view_index index0) ;;;
  modify (set_view_previous previous0) ;;;
  modify_ctx (set_invoked_with invoked_with0) ;;;
  modify_ctx (set_invoked_subcommand invoked_subcommand0) ;;;
  modify_ctx (set_invoked_parents invoked_parents0) ;;;
  modify_ctx (set_subcommand_passed subcommand_passed0).

Definition reinvoke (call_hooks restart : bool) : M unit :=
  cmd <- gets (fun w => command (ctx w)) ;;
  match cmd with
  | None => raise (ValueError "This context is not valid.")
  | Some cmd =>
      (* some state to revert to when we're done *)
      index0 <- gets (fun w => index (view w)) ;;
      previous0 <- gets (fun w => previous (view w)) ;;
      invoked_with0 <- gets (fun w => invoked_with (ctx w)) ;;
      invoked_subcommand0 <- gets (fun w => invoked_subcommand (ctx w)) ;;
      invoked_parents0 <- gets (fun w => invoked_parents (ctx w)) ;;
      subcommand_passed0 <- gets (fun w => subcommand_passed (ctx w)) ;;
      to_call <- restart_chain cmd restart ;;
      try_finally
        (call (CallCommandReinvoke to_call call_hooks)
              (command_reinvoke to_call call_hooks))
        (revert_state cmd index0 previous0 invoked_with0 invoked_subcommand0
                      invoked_parents0 subcommand_passed0)
  end.

(** ** [Context.valid] *)

Definition valid : M bool :=
  p <- gets (fun w => prefix (ctx w)) ;;
  c <- gets (fun w => command (ctx w)) ;;
  ret (bool_decide (p ≠ None) && bool_decide (c ≠ None)).

(** ** The derived attributes [guild], [channel], [author], [me] *)

(** Modelled from the spec: [discord.utils.cached_property], the decorator
    of the four derived attributes, is defined in [discord/utils.py], which is
    not among the sources.  The spec: on first access, compute the value,
    store it, and return the stored value on every subsequent access for the
    lifetime of the context instance.  [attr] reads the instance attribute,
    [store] writes it, [compute] is the decorated function. *)
Definition cached_property {A} (attr : Context -> option A)
    (store : A -> Context -> Context) (compute : M A) : M A :=
  stored <- gets (fun w => attr (ctx w)) ;;
  match stored with
  | Some v => ret v
  | None =>
      v <- compute ;;
      modify_ctx (store v) ;;;
      ret v
  end.

(** [return self.message.guild] *)
Definition guild : M (option objid) :=
  cached_property guild_attr set_guild_attr (gets (fun w => msg_guild (msg w))).

(** [return self.message.channel] *)
Definition channel : M objid :=
  cached_property channel_attr set_channel_attr (gets (fun w => msg_channel (msg w))).

(** [return self.message.author] *)
Definition author : M objid :=
  cached_property author_attr set_author_attr (gets (fun w => msg_author (msg w))).

(** [return self.guild.me if self.guild is not None else self.bot.user];
    the test reads [self.guild] through its cache, and the second read of
    [self.guild] finds what the first one stored. *)
Definition me : M pyval :=
  cached_property me_attr set_me_attr
    (g <- guild ;;
     match g with
     | Some g => gets (fun w => default PNone (guild_me w !! g))
     | None => gets (fun w => user (bot w))
     end).

(** ** [Context.send_help] *)

(** [cmd.context = self] on the help command object at [c]. *)
Definition set_hc_context (c : loc) (self : objid) (w : World) : World :=
  set_help_commands
    (alter (fun hc => {| hc_context := Some self; hc_attrs := hc_attrs hc |}) c
           (help_commands w)) w.

(** [entity = bot.get_cog(entity) or bot.get_command(entity)] for a string,
    the argument itself otherwise. *)
Definition resolve_entity (e : entity) : M (option pyobject) :=
  match e with
  | EntityStr name =>
      gets (fun w => match get_cog w name with
                     | Some cog => Some cog
                     | None => get_command w name
                     end)
  | EntityNone => ret None
  | EntityObj o => ret (Some o)
  end.

(** The [except CommandError as e:] suite; the function then returns
    [None]. *)
Definition help_error (c : loc) (e : exn) : M pyval :=
  call (CallOnHelpCommandError c e) (on_help_command_error c e) ;;;
  ret PNone.

(** The [if hasattr ... elif isinstance ... else] chain inside the second
    [try]. *)
Definition send_entity_help (c : loc) (e : pyobject) : M pyval :=
  if has_cog_commands e then
    call (CallInjectedSendCogHelp c e) (injected_send_cog_help c e)
  else
    match obj_class e with
    | GroupCommand => call (CallInjectedSendGroupHelp c e) (injected_send_group_help c e)
    | PlainCommand => call (CallInjectedSendCommandHelp c e) (injected_send_command_help c e)
    | NotCommand => ret PNone
    end.

Definition send_help (args : list entity) : M pyval :=
  self <- gets (fun w => self_id (ctx w)) ;;
  cmd <- gets (fun w => help_command (bot w)) ;;
  match cmd with
  | None => ret PNone
  | Some h =>
      c <- call (CallHelpCopy h) (help_copy h) ;;
      modify (set_hc_context c self) ;;;
      match args with
      | [] =>
          call (CallPrepareHelpCommand c None) (prepare_help_command c None) ;;;
          mapping <- call (CallGetBotMapping c) (get_bot_mapping c) ;;
          try_except_CommandError
            (call (CallInjectedSendBotHelp c mapping) (injected_send_bot_help c mapping))
            (help_error c)
      | e :: _ =>
          e <- resolve_entity e ;;
          match e with
          | None => ret PNone
          | Some e =>
              match qualified_name e with
              | None =>
                  (* if we're here then it's not a cog, group, or command. *)
                  ret PNone
              | Some name =>
                  call (CallPrepareHelpCommand c (Some name))
                       (prepare_help_command c (Some name)) ;;;
                  try_except_CommandError (send_entity_help c e) (help_error c)
              end
          end
      end
  end.

(** ** [Context.send] and [Context.reply] *)

(** [timedelta(minutes=15)], in microseconds. *)
Definition fifteen_minutes : Z := 15 * 60 * 1000000.

(** [responded_at is not None and utcnow() - responded_at >= timedelta(minutes=15)] *)
Definition session_expired (r : InteractionResponse) (now : Z) : bool :=
  match responded_at r with
  | Some t => bool_decide (fifteen_minutes <= now - t)
  | None => false
  end.

(** The four [kwargs.pop(..., None)]. *)
Definition strip_unsupported (kw : kwargs_t) : kwargs_t :=
  delete "mention_author" (delete "reference" (delete "stickers" (delete "nonce" kw))).

(** [any(arg in kwargs for arg in ("file", "files", "allowed_mentions"))] *)
Definition needs_followup (kw : kwargs_t) : bool :=
  existsb (fun arg => bool_decide (is_Some (kw !! arg)))
          ["file"; "files"; "allowed_mentions"].

(** [super().send(content, **kwargs)] *)
Definition super_send (content : pyval) (kw : kwargs_t) : M pyval :=
  call (CallMessageableSend content kw) (messageable_send content kw).

Definition send (content : pyval) (return_message : bool) (ephemeral : pyval)
    (kw : kwargs_t) : M pyval :=
  i <- gets (fun w => interaction (ctx w)) ;;
  now <- gets clock ;;
  match i with
  | None => super_send content kw
  | Some i =>
      if session_expired (response i) now then super_send content kw
      else
        (* Remove unsupported arguments from kwargs *)
        let kw := strip_unsupported kw in
        let is_done := done (response i) in
        if negb (return_message || is_done || needs_followup kw) then
          call (CallResponseSendMessage content ephemeral kw)
               (response_send_message content ephemeral kw)
        else
          (* We have to defer in order to use the followup webhook *)
          (if negb is_done then
             call (CallResponseDefer ephemeral) (response_defer ephemeral)
           else ret tt) ;;;
          call (CallFollowupSend content ephemeral kw)
               (followup_send content ephemeral kw)
  end.

(** [self.send(content, return_message=return_message, reference=self.message, **kwargs)]:
    a [reference] among [kwargs] is a second value for the keyword, which the
    call rejects with [TypeError] before [send] runs; an [ephemeral] among
    [kwargs] binds the parameter of [send], whose default is [False]. *)
Definition reply (content : pyval) (return_message : bool) (kw : kwargs_t) : M pyval :=
  m <- gets (fun w => message (ctx w)) ;;
  if bool_decide (is_Some (kw !! "reference")) then
    raise (TypeError "send() got multiple values for keyword argument 'reference'")
  else
    send content return_message (default (PBool false) (kw !! "ephemeral"))
         (<["reference" := PObj m]> (delete "ephemeral" kw)).

(** ** Vocabulary of the statements *)

(** The store in which [reinvoke] calls the command when [restart] is true:
    the cursor was put right after the prefix with [previous] at 0, then
    [get_word] read the root token into [invoked_with]; [invoked_parents] is
    a new, empty list. *)
Definition restart_world (w : World) : World :=
  let v0 := {| index := prefix_length (prefix (ctx w)); previous := 0;
               buffer := buffer (view w) |} in
  let a := new_list w in
  set_ctx (set_invoked_with (Some (get_word v0).1) (set_invoked_parents a (ctx w)))
          (set_view (get_word v0).2 (set_lists (<[a := []]> (lists w)) w)).

(** What is expected of a derived attribute read by [getter] and kept in
    the instance attribute [attr]: from any state [s] the read returns a
    value [v]; when nothing was stored yet, [v] is [first], computed from the
    store at that moment; after the read [v] is stored; and in every state
    that still holds this stored attribute, whatever else has changed, the
    read returns [v] again and changes nothing. *)
Definition stable_attribute {A} (getter : M A) (attr : Context -> option A)
    (first : World -> A) (s : St) : Prop :=
  exists v : A,
    (getter s).1 = Ok v /\
    (attr (ctx (world s)) = None -> v = first (world s)) /\
    attr (ctx (world (getter s).2)) = Some v /\
    forall s2 : St,
      attr (ctx (world s2)) = attr (ctx (world (getter s).2)) ->
      getter s2 = (Ok v, s2).

(** The guild [me] is computed from: the stored [guild] if there is one, the
    guild of the message otherwise. *)
Definition guild_now (w : World) : option objid :=
  match guild_attr (ctx w) with
  | Some g => g
  | None => msg_guild (msg w)
  end.

(** The conditions under which [send] takes the plain channel transport. *)
Definition plain_condition (s : St) : Prop :=
  interaction (ctx (world s)) = None \/
  exists i t,
    interaction (ctx (world s)) = Some i /\
    responded_at (response i) = Some t /\
    fifteen_minutes <= clock (world s) - t.

(** A collaborator leaves the bot's help command alone: [bot.help_command]
    still refers to [h], and the object at [h] is as it was. *)
Definition keeps_help_command (h : loc) {A} (f : World -> result A * World) : Prop :=
  forall w,
    help_command (bot w) = Some h ->
    help_command (bot (f w).2) = Some h /\
    help_commands (f w).2 !! h = help_commands w !! h.

(** Every collaborator of [send_help] leaves the help command at [h] alone,
    and [copy()] returns another object than the one it copies. *)
Record HelpCollaboratorsKeep (h : loc) : Prop := {
  keep_copy : keeps_help_command h (help_copy h);
  copy_is_new : forall w c w', help_copy h w = (Ok c, w') -> c <> h;
  keep_prepare : forall c name, keeps_help_command h (prepare_help_command c name);
  keep_mapping : forall c, keeps_help_command h (get_bot_mapping c);
  keep_bot_help : forall c m, keeps_help_command h (injected_send_bot_help c m);
  keep_cog_help : forall c e, keeps_help_command h (injected_send_cog_help c e);
  keep_group_help : forall c e, keeps_help_command h (injected_send_group_help c e);
  keep_command_help : forall c e, keeps_help_command h (injected_send_command_help c e);
  keep_on_error : forall c e, keeps_help_command h (on_help_command_error c e);
}.

(** The bot's help command is [h], and the object at [h] is the one of
    the store [w0]. *)
Definition help_command_as_in (h : loc) (w0 w : World) : Prop :=
  help_command (bot w) = Some h /\
  help_commands w !! h = help_commands w0 !! h.

(** The calls an operation makes from a state. *)
Definition events_of {A} (m : M A) (s : St) : list event :=
  drop (length (trace s)) (trace (m s).2).

End Operations.

(** ** The rest of the context *)

(** The attributes of other objects that the remaining operations read;
    reading them is not a call and is not recorded in the trace. *)
Class Attributes := {
  (** [user.id] and [user.display_name] of a user or member object *)
  user_id : objid -> N;
  display_name : objid -> string;
  (** [command.cog] *)
  command_cog : Command -> pyval;
  (** [guild.voice_client] *)
  voice_client_of : World -> objid -> pyval;
  (** [channel.permissions_for(author)] *)
  permissions_for : World -> objid -> objid -> pyval;
}.

(** The [AttributeError] of an attribute read on [None]; it is not a
    [CommandError]. *)
Definition AttributeError : exn := OtherError 1%positive.






Section Remaining.

Context `{Collaborators} `{Attributes}.


(** *** [Context.__init__] *)

(** [bool(l)] for the list object at [l]. *)
Definition list_is_truthy (w : World) (l : loc) : bool :=
  match lists w !! l with
  | Some (_ :: _) => true
  | _ => false
  end.

(** The constructor, on the store [w] in which it is called.  An argument
    left at [MISSING] is [None] here; [MISSING] and an empty list or dict are
    falsy, so [x or []] is a new empty list for them.  [args] and [kwargs]
    are kept by value; [invoked_parents] is a list object.  [interaction] is
    the class attribute, [None].  The attributes [_ignored_params] and
    [_state], which no operation of the context reads, are not kept. *)
Definition new_context (self : objid) (message0 : objid) (bot0 : Bot)
    (view0 : StringView) (args0 : option (list pyval)) (kwargs0 : option kwargs_t)
    (prefix0 : option string) (command0 : option Command)
    (invoked_with0 : option string) (invoked_parents0 : option loc)
    (invoked_subcommand0 : option Command) (subcommand_passed0 : option string)
    (command_failed0 : bool) (current_parameter0 : option objid)
    (w : World) : World :=
  let shared := match invoked_parents0 with
                | Some l => if list_is_truthy w l then Some l else None
                | None => None
                end in
  let parents := match shared with
                 | Some l => l
                 | None => new_list w
                 end in
  let store := match shared with
               | Some _ => lists w
               | None => <[new_list w := []]> (lists w)
               end in
  {| ctx := {| self_id := self; message := message0;
               args := default [] args0; kwargs := default ∅ kwargs0;
               prefix := prefix0; command := command0;
               invoked_with := invoked_with0; invoked_parents := parents;
               invoked_subcommand := invoked_subcommand0;
               subcommand_passed := subcommand_passed0;
               command_failed := command_failed0;
               current_parameter := current_parameter0;
               interaction := None;
               guild_attr := None; channel_attr := None; author_attr := None;
               me_attr := None |};
     view := view0; lists := store; bot := bot0;
     help_commands := help_commands w; msg := msg w; guild_me := guild_me w;
     clock := clock w |}.

(** *** [Context._get_channel], [cog], [voice_client], [author_permissions] *)

(** [return self.channel] *)
Definition _get_channel : M objid := channel.

Definition cog : M pyval :=
  c <- gets (fun w => command (ctx w)) ;;
  match c with
  | None => ret PNone
  | Some c => ret (command_cog c)
  end.

(** [g = self.guild; return g.voice_client if g else None] *)
Definition voice_client : M pyval :=
  g <- guild ;;
  match g with
  | Some g => gets (fun w => voice_client_of w g)
  | None => ret PNone
  end.

(** [return self.channel.permissions_for(self.author)] *)
Definition author_permissions : M pyval :=
  c <- channel ;;
  a <- author ;;
  gets (fun w => permissions_for w c a).

(** *** [Context.clean_prefix] *)

(** [s] after its prefix [p], when it starts with [p]. *)
Fixpoint strip_prefix (p s : string) : option string :=
  match p with
  | EmptyString => Some s
  | String a p' =>
      match s with
      | EmptyString => None
      | String b s' => if bool_decide (a = b) then strip_prefix p' s' else None
      end
  end.

(** A match of the pattern [<@!?id>] at the start of [s]: what follows the
    match.  The optional [!] is tried first. *)
Definition match_mention (id s : string) : option string :=
  match strip_prefix "<@" s with
  | None => None
  | Some r =>
      match match strip_prefix "!" r with
            | Some r' => strip_prefix (id +:+ ">") r'
            | None => None
            end with
      | Some rest => Some rest
      | None => strip_prefix (id +:+ ">") r
      end
  end.

(** [pattern.sub(repl, s)]: from left to right, each match is replaced by
    [repl] and the scan goes on after it.  [skip] counts the characters of
    the match that are still to be passed. *)
Fixpoint sub_from (id repl : string) (skip : nat) (s : string) : string :=
  match s with
  | EmptyString => EmptyString
  | String c s' =>
      match skip with
      | S k => sub_from id repl k s'
      | O =>
          match match_mention id s with
          | Some rest =>
              repl +:+ sub_from id repl (String.length s - String.length rest - 1) s'
          | None => String c (sub_from id repl 0 s')
          end
      end
  end.

Definition pattern_sub (id repl s : string) : string := sub_from id repl 0 s.

(** [name.replace("\\", r"\\")]: every backslash is doubled. *)
Fixpoint escape_backslashes (s : string) : string :=
  match s with
  | EmptyString => EmptyString
  | String c s' =>
      if bool_decide (c = "\"%char) then String c (String c (escape_backslashes s'))
      else String c (escape_backslashes s')
  end.

(** How [re] reads a replacement: two backslashes stand for one.  A
    backslash before another character starts an escape or a group
    reference; none is left after [escape_backslashes], and such a pair is
    kept as it is here. *)
Fixpoint expand_template (s : string) : string :=
  match s with
  | EmptyString => EmptyString
  | String c s' =>
      if bool_decide (c = "\"%char) then
        match s' with
        | String d s'' =>
            if bool_decide (d = "\"%char) then String c (expand_template s'')
            else String c (String d (expand_template s''))
        | EmptyString => String c EmptyString
        end
      else String c (expand_template s')
  end.

Definition clean_prefix : M string :=
  p <- gets (fun w => prefix (ctx w)) ;;
  match p with
  | None => ret ""
  | Some p =>
      user <- me ;;
      match user with
      | PObj u =>
          let id := pretty (user_id u) in
          let repl := expand_template ("@" +:+ escape_backslashes (display_name u)) in
          ret (pattern_sub id repl p)
      | _ => raise AttributeError
      end
  end.

(** Vocabulary: two stores that differ at most in the four attributes that
    [cached_property] writes. *)
Definition same_but_cache (w w' : World) : Prop :=
  view w' = view w /\ lists w' = lists w /\ bot w' = bot w /\
  help_commands w' = help_commands w /\ msg w' = msg w /\
  guild_me w' = guild_me w /\ clock w' = clock w /\
  self_id (ctx w') = self_id (ctx w) /\ message (ctx w') = message (ctx w) /\
  args (ctx w') = args (ctx w) /\ kwargs (ctx w') = kwargs (ctx w) /\
  prefix (ctx w') = prefix (ctx w) /\ command (ctx w') = command (ctx w) /\
  invoked_with (ctx w') = invoked_with (ctx w) /\
  invoked_parents (ctx w') = invoked_parents (ctx w) /\
  invoked_subcommand (ctx w') = invoked_subcommand (ctx w) /\
  subcommand_passed (ctx w') = subcommand_passed (ctx w) /\
  command_failed (ctx w') = command_failed (ctx w) /\
  current_parameter (ctx w') = current_parameter (ctx w) /\
  interaction (ctx w') = interaction (ctx w).

(** The options of a call of one of the three [send] transports. *)
Definition event_options (ev : event) : option kwargs_t :=
  match ev with
  | CallMessageableSend _ kw => Some kw
  | CallResponseSendMessage _ _ kw => Some kw
  | CallFollowupSend _ _ kw => Some kw
  | _ => None
  end.

(** A decimal digit; a string of decimal digits. *)
Definition is_digit (c : ascii) : bool :=
  bool_decide (c ∈ ["0"; "1"; "2"; "3"; "4"; "5"; "6"; "7"; "8"; "9"]%char).

Fixpoint all_digits (s : string) : bool :=
  match s with
  | EmptyString => true
  | String c s' => is_digit c && all_digits s'
  end.

(** No [<] in the string. *)
Fixpoint no_lt (s : string) : bool :=
  match s with
  | EmptyString => true
  | String c s' => negb (bool_decide (c = "<"%char)) && no_lt s'
  end.

End Remaining.

(** ** A concrete set of collaborators

    One implementation of every interface, to run the operations on. *)
Module Demo.

Definition is_space (c : Ascii.ascii) : bool :=
  bool_decide (c = " "%char).

(** Number of characters before the first space. *)
Fixpoint word_length (s : string) : nat :=
  match s with
  | EmptyString => 0%nat
  | String c rest => if is_space c then 0%nat else S (word_length rest)
  end.

(** A tokenizer: the word that starts at the cursor; the cursor moves past
    it and [previous] remembers where it was. *)
Definition get_word (v : StringView) : string * StringView :=
  let i := Z.to_nat (index v) in
  let n := word_length (String.substring i (String.length (buffer v) - i) (buffer v)) in
  (String.substring i n (buffer v),
   {| index := index v + Z.of_nat n; previous := index v; buffer := buffer v |}).

(** Command 11 is a subcommand of the group 10. *)
Definition root_parent (c : Command) : option Command :=
  if bool_decide (c = 11%positive) then Some 10%positive else None.

(** A command that works like a group: it reads the next word as the
    subcommand it was passed, appends the invoking name to the list of
    parents in place, and overwrites the fields that name the invocation.
    Command 13 fails after doing so. *)
Definition command_reinvoke (to_call : Command) (call_hooks : bool) (w : World)
    : result unit * World :=
  let '(word, v) := get_word (view w) in
  let parents := invoked_parents (ctx w) in
  let name := default "" (invoked_with (ctx w)) in
  let c := set_subcommand_passed (Some word)
             (set_invoked_subcommand (Some 12%positive)
                (set_invoked_with (Some word)
                   (set_command (Some 12%positive) (ctx w)))) in
  let w' := set_ctx c (set_view v
              (set_lists (alter (fun l => (l ++ [name])%list) parents (lists w)) w)) in
  (if bool_decide (to_call = 13%positive) then Raise (CommandError 13%positive) else Ok tt,
   w').

(** The interaction records its first response. *)
Definition respond (w : World) : World :=
  match interaction (ctx w) with
  | None => w
  | Some i =>
      let r := {| responded_at :=
                    match responded_at (response i) with
                    | Some t => Some t
                    | None => Some (clock w)
                    end;
                  done := true |} in
      let c := ctx w in
      set_ctx
        {| self_id := self_id c; message := message c; args := args c; kwargs := kwargs c;
           prefix := prefix c; command := command c; invoked_with := invoked_with c;
           invoked_parents := invoked_parents c; invoked_subcommand := invoked_subcommand c;
           subcommand_passed := subcommand_passed c; command_failed := command_failed c;
           current_parameter := current_parameter c;
           interaction := Some {| interaction_id := interaction_id i; response := r |};
           guild_attr := guild_attr c; channel_attr := channel_attr c;
           author_attr := author_attr c; me_attr := me_attr c |} w
  end.

Definition messageable_send (content : pyval) (kw : kwargs_t) (w : World)
    : result pyval * World := (Ok (PObj 100%positive), w).

Definition response_send_message (content ephemeral : pyval) (kw : kwargs_t) (w : World)
    : result pyval * World := (Ok PNone, respond w).

Definition response_defer (ephemeral : pyval) (w : World) : result unit * World :=
  (Ok tt, respond w).

Definition followup_send (content ephemeral : pyval) (kw : kwargs_t) (w : World)
    : result pyval * World := (Ok (PObj 101%positive), w).

Definition admin_cog : pyobject :=
  {| obj_id := 20%positive; qualified_name := Some "Admin";
     has_cog_commands := true; obj_class := NotCommand |}.

Definition ping_command : pyobject :=
  {| obj_id := 21%positive; qualified_name := Some "ping";
     has_cog_commands := false; obj_class := PlainCommand |}.

Definition tools_group : pyobject :=
  {| obj_id := 22%positive; qualified_name := Some "tools";
     has_cog_commands := false; obj_class := GroupCommand |}.

Definition get_cog (w : World) (name : string) : option pyobject :=
  if bool_decide (name = "Admin") then Some admin_cog else None.

Definition get_command (w : World) (name : string) : option pyobject :=
  if bool_decide (name = "ping") then Some ping_command
  else if bool_decide (name = "tools") then Some tools_group
  else None.

(** The copy is a new object with the attributes of the original and no
    context yet. *)
Definition help_copy (h : loc) (w : World) : result loc * World :=
  let c := fresh ({[h]} ∪ dom (help_commands w)) in
  let attrs := match help_commands w !! h with
               | Some hc => hc_attrs hc
               | None => ∅
               end in
  (Ok c, set_help_commands
           (<[c := {| hc_context := None; hc_attrs := attrs |}]> (help_commands w)) w).

Definition prepare_help_command (c : loc) (name : option string) (w : World)
    : result unit * World := (Ok tt, w).

Definition get_bot_mapping (c : loc) (w : World) : result pyval * World :=
  (Ok (PObj 200%positive), w).

Definition injected_send_bot_help (c : loc) (mapping : pyval) (w : World)
    : result pyval * World := (Ok (PObj 201%positive), w).

Definition injected_send_cog_help (c : loc) (e : pyobject) (w : World)
    : result pyval * World := (Ok (PObj 202%positive), w).

(** Rendering a group or a command fails; what the wrapped coroutine raises
    is a [CommandError]. *)
Definition injected_send_group_help (c : loc) (e : pyobject) (w : World)
    : result pyval * World := (Raise (CommandError 301%positive), w).

Definition injected_send_command_help (c : loc) (e : pyobject) (w : World)
    : result pyval * World := (Raise (CommandError 300%positive), w).

Definition on_help_command_error (c : loc) (e : exn) (w : World)
    : result unit * World := (Ok tt, w).

#[export] Instance collaborators : Collaborators :=
  Build_Collaborators get_word root_parent command_reinvoke
    messageable_send response_send_message response_defer followup_send
    get_cog get_command help_copy prepare_help_command get_bot_mapping
    injected_send_bot_help injected_send_cog_help injected_send_group_help
    injected_send_command_help on_help_command_error.

(** The context of the message [?grp sub arg], parsed up to [sub]. *)
Definition a_context (cmd : option Command) (i : option Interaction) : Context :=
  {| self_id := 1%positive; message := 2%positive; args := []; kwargs := ∅;
     prefix := Some "?"; command := cmd; invoked_with := Some "sub";
     invoked_parents := 1%positive; invoked_subcommand := None;
     subcommand_passed := None; command_failed := true;
     current_parameter := None; interaction := i;
     guild_attr := None; channel_attr := None; author_attr := None;
     me_attr := None |}.

Definition a_world (cmd : option Command) (i : option Interaction) (now : Z) : World :=
  {| ctx := a_context cmd i;
     view := {| index := 8; previous := 5; buffer := "?grp sub arg" |};
     lists := {[ 1%positive := ["grp"] ]};
     bot := {| user := PObj 3%positive; help_command := Some 1%positive |};
     help_commands := {[ 1%positive := {| hc_context := None; hc_attrs := ∅ |} ]};
     msg := {| msg_guild := Some 4%positive; msg_channel := 5%positive;
               msg_author := 6%positive |};
     guild_me := {[ 4%positive := PObj 7%positive ]};
     clock := now |}.

Definition a_state (cmd : option Command) (i : option Interaction) (now : Z) : St :=
  {| world := a_world cmd i now; trace := [] |}.

(** An interaction whose first response, if any, was recorded at [t]. *)
Definition an_interaction (t : option Z) (is_done : bool) : Interaction :=
  {| interaction_id := 8%positive;
     response := {| responded_at := t; done := is_done |} |}.

(** The context of [?grp sub arg], without an interaction. *)
Definition plain_state (cmd : option Command) : St := a_state cmd None 0.

(** The same context with an interaction whose first response was recorded
    at [t] (or not yet), read at the time [now]. *)
Definition slash_state (t : option Z) (is_done : bool) (now : Z) : St :=
  a_state (Some 11%positive) (Some (an_interaction t is_done)) now.

(** The bot is the member 7 of the guild 4; its name holds a backslash. *)
Definition user_id (u : objid) : N := 80351110224678912 + Npos u.

Definition display_name (u : objid) : string :=
  if bool_decide (u = 7%positive) then "Rob\ot" else "Someone".

Definition command_cog (c : Command) : pyval := PObj 20%positive.

Definition voice_client_of (w : World) (g : objid) : pyval := PNone.

(** The permissions are a number made of the channel and the author. *)
Definition permissions_for (w : World) (c a : objid) : pyval :=
  PInt (Z.pos c * 1000 + Z.pos a).

#[export] Instance attributes : Attributes :=
  Build_Attributes user_id display_name command_cog voice_client_of permissions_for.

(** The context of the message [<@!80351110224678919> help], whose prefix is
    a mention of the bot. *)
Definition mention_state : St :=
  {| world := new_context 1%positive 2%positive
                {| user := PObj 3%positive; help_command := Some 1%positive |}
                {| index := 23; previous := 0;
                   buffer := "<@!80351110224678919> help" |}
                None None (Some "<@!80351110224678919> ") (Some 11%positive)
                (Some "help") None None None false None
                (a_world None None 0);
     trace := [] |}.

(** Collaborators of a bad day: [prepare_help_command] and [defer] raise,
    the others are as above. *)
Definition prepare_help_command_fails (c : loc) (name : option string) (w : World)
    : result unit * World := (Raise (CommandError 302%positive), w).

Definition response_defer_fails (ephemeral : pyval) (w : World) : result unit * World :=
  (Raise (OtherError 303%positive), w).

Definition failing_collaborators : Collaborators :=
  Build_Collaborators get_word root_parent command_reinvoke
    messageable_send response_send_message response_defer_fails followup_send
    get_cog get_command help_copy prepare_help_command_fails get_bot_mapping
    injected_send_bot_help injected_send_cog_help injected_send_group_help
    injected_send_command_help on_help_command_error.



(** A context built by the constructor with the given prefix and list of
    parents, for the message of [a_world]. *)
Definition built_state (p : option string) (parents : option loc) : St :=
  {| world := new_context 1%positive 2%positive
                {| user := PObj 3%positive; help_command := Some 1%positive |}
                {| index := 0; previous := 0; buffer := "help me" |}
                None None p (Some 11%positive) (Some "help") parents None None
                false None (a_world None None 0);
     trace := [] |}.

End Demo.

(** * Properties *)

Section Properties.

Context `{Collaborators}.

(** ** The monad *)

Lemma call_trace {A} (ev : event) (h : World -> result A * World) (s : St) :
  trace (call ev h s).2 = trace s ++ [ev].
Proof. unfold call. destruct (h (world s)); reflexivity. Qed.

Lemma call_world {A} (ev : event) (h : World -> result A * World) (s : St) :
  world (call ev h s).2 = (h (world s)).2.
Proof. unfold call. destruct (h (world s)); reflexivity. Qed.

Lemma call_result {A} (ev : event) (h : World -> result A * World) (s : St) :
  (call ev h s).1 = (h (world s)).1.
Proof. unfold call. destruct (h (world s)); reflexivity. Qed.

Lemma bind_gets {A B} (f : World -> A) (k : A -> M B) (s : St) :
  bind (gets f) k s = k (f (world s)) s.
Proof. reflexivity. Qed.

Lemma bind_modify {B} (f : World -> World) (k : unit -> M B) (s : St) :
  bind (modify f) k s = k tt {| world := f (world s); trace := trace s |}.
Proof. reflexivity. Qed.

Lemma events_of_app {A} (m : M A) (s : St) (evs : list event) :
  trace (m s).2 = trace s ++ evs -> events_of m s = evs.
Proof. intros E. unfold events_of. rewrite E. apply drop_app_length. Qed.

(** ** [reinvoke] *)

(** With [restart], [reinvoke] is the guarded call of the root command, made
    from [restart_world]. *)
Lemma reinvoke_restart_eq (call_hooks : bool) (s : St) (cmd : Command) :
  command (ctx (world s)) = Some cmd ->
  reinvoke call_hooks true s =
  try_finally
    (call (CallCommandReinvoke (root_or_self cmd) call_hooks)
          (command_reinvoke (root_or_self cmd) call_hooks))
    (revert_state cmd (index (view (world s))) (previous (view (world s)))
       (invoked_with (ctx (world s))) (invoked_subcommand (ctx (world s)))
       (invoked_parents (ctx (world s))) (subcommand_passed (ctx (world s))))
    {| world := restart_world (world s); trace := trace s |}.
Proof.
  intros Hcmd. unfold reinvoke, bind, gets. rewrite Hcmd. cbn.
  unfold read_invoked_with, bind, gets, modify, modify_ctx, modify, ret. cbn.
  unfold restart_world.
  destruct (get_word _) as [word v'] eqn:E. cbn. reflexivity.
Qed.

Lemma reinvoke_resume_eq (call_hooks : bool) (s : St) (cmd : Command) :
  command (ctx (world s)) = Some cmd ->
  reinvoke call_hooks false s =
  try_finally
    (call (CallCommandReinvoke cmd call_hooks) (command_reinvoke cmd call_hooks))
    (revert_state cmd (index (view (world s))) (previous (view (world s)))
       (invoked_with (ctx (world s))) (invoked_subcommand (ctx (world s)))
       (invoked_parents (ctx (world s))) (subcommand_passed (ctx (world s))))
    s.
Proof.
  intros Hcmd. unfold reinvoke, bind, gets. rewrite Hcmd. cbn.
  destruct s; reflexivity.
Qed.

(** What the guarded call leaves behind, whatever the command did. *)
Lemma guarded_call_reverts (to_call cmd : Command) (call_hooks : bool)
    (i p : Z) (iw : option string) (isub : option Command) (ip : loc)
    (sp : option string) (s : St) :
  let s' := (try_finally
               (call (CallCommandReinvoke to_call call_hooks)
                     (command_reinvoke to_call call_hooks))
               (revert_state cmd i p iw isub ip sp) s).2 in
  command (ctx (world s')) = Some cmd /\
  invoked_with (ctx (world s')) = iw /\
  invoked_subcommand (ctx (world s')) = isub /\
  invoked_parents (ctx (world s')) = ip /\
  subcommand_passed (ctx (world s')) = sp /\
  index (view (world s')) = i /\
  previous (view (world s')) = p.
Proof.
  unfold try_finally, call.
  destruct (command_reinvoke to_call call_hooks (world s)) as [r w1].
  cbn. repeat split.
Qed.

Lemma guarded_call_outcome (to_call cmd : Command) (call_hooks : bool)
    (i p : Z) (iw : option string) (isub : option Command) (ip : loc)
    (sp : option string) (s : St) :
  (try_finally
     (call (CallCommandReinvoke to_call call_hooks)
           (command_reinvoke to_call call_hooks))
     (revert_state cmd i p iw isub ip sp) s).1
  = (command_reinvoke to_call call_hooks (world s)).1.
Proof.
  unfold try_finally, call.
  destruct (command_reinvoke to_call call_hooks (world s)) as [r w1].
  reflexivity.
Qed.

(** What [reinvoke] reverts, for every behaviour of the command that is
    re-run: the outcome of [reinvoke] is the outcome of that inner call, a
    normal return or an exception, and in both cases [command],
    [invoked_with], [invoked_subcommand], [subcommand_passed] and the cursor
    of the view hold the values they had before the call, and
    [invoked_parents] refers to the list object it referred to before the
    call.  This says nothing of what that list holds. *)
Theorem reinvoke_reverts_fields (call_hooks restart : bool) (s : St) (cmd : Command) :
  command (ctx (world s)) = Some cmd ->
  let s' := (reinvoke call_hooks restart s).2 in
  let to_call := if restart then root_or_self cmd else cmd in
  let w_in := if restart then restart_world (world s) else world s in
  (reinvoke call_hooks restart s).1 = (command_reinvoke to_call call_hooks w_in).1 /\
  command (ctx (world s')) = command (ctx (world s)) /\
  invoked_with (ctx (world s')) = invoked_with (ctx (world s)) /\
  invoked_subcommand (ctx (world s')) = invoked_subcommand (ctx (world s)) /\
  invoked_parents (ctx (world s')) = invoked_parents (ctx (world s)) /\
  subcommand_passed (ctx (world s')) = subcommand_passed (ctx (world s)) /\
  index (view (world s')) = index (view (world s)) /\
  previous (view (world s')) = previous (view (world s)).
Proof.
  intros Hcmd. cbv zeta.
  destruct restart.
  - rewrite (reinvoke_restart_eq _ _ _ Hcmd).
    split; [apply guarded_call_outcome|].
    rewrite Hcmd. apply guarded_call_reverts.
  - rewrite (reinvoke_resume_eq _ _ _ Hcmd).
    split; [apply guarded_call_outcome|].
    rewrite Hcmd. apply guarded_call_reverts.
Qed.

(** [reinvoke] does not touch the contents of list objects: after the call
    they are what the command left.  The list that [invoked_parents] refers
    to after the call is the object it referred to before the call, with the
    contents the command gave it. *)
Lemma reinvoke_lists (call_hooks restart : bool) (s : St) (cmd : Command) :
  command (ctx (world s)) = Some cmd ->
  lists (world (reinvoke call_hooks restart s).2)
  = lists (command_reinvoke (if restart then root_or_self cmd else cmd) call_hooks
             (if restart then restart_world (world s) else world s)).2.
Proof.
  intros Hcmd. destruct restart.
  - rewrite (reinvoke_restart_eq _ _ _ Hcmd). unfold try_finally, call. cbn.
    destruct (command_reinvoke _ _ _); reflexivity.
  - rewrite (reinvoke_resume_eq _ _ _ Hcmd). unfold try_finally, call. cbn.
    destruct (command_reinvoke _ _ _); reflexivity.
Qed.

(** C5: with [restart], on a context whose command is [cmd], [reinvoke]
    calls the root parent of [cmd], or [cmd] itself when it has none.  The
    call is made after the cursor was put at the length of the prefix with
    [previous] at 0, after [invoked_parents] was replaced by a new empty
    list, and after [get_word] read, from that position, the word that
    becomes [invoked_with]. *)
Theorem reinvoke_restart_from_root (call_hooks : bool) (s : St) (cmd : Command) :
  command (ctx (world s)) = Some cmd ->
  let w := world s in
  let to_call := match root_parent cmd with Some root => root | None => cmd end in
  let v0 := {| index := Z.of_nat (String.length (default "" (prefix (ctx w))));
               previous := 0; buffer := buffer (view w) |} in
  let w_in := restart_world w in
  events_of (reinvoke call_hooks true) s = [CallCommandReinvoke to_call call_hooks] /\
  (reinvoke call_hooks true s).1 = (command_reinvoke to_call call_hooks w_in).1 /\
  lists (world (reinvoke call_hooks true s).2)
    = lists (command_reinvoke to_call call_hooks w_in).2 /\
  view w_in = (get_word v0).2 /\
  invoked_with (ctx w_in) = Some (get_word v0).1 /\
  lists w_in !! invoked_parents (ctx w_in) = Some [] /\
  lists w !! invoked_parents (ctx w_in) = None /\
  command (ctx w_in) = Some cmd.
Proof.
  intros Hcmd w to_call v0 w_in.
  assert (Hv0 : v0 = {| index := prefix_length (prefix (ctx w)); previous := 0;
                        buffer := buffer (view w) |}).
  { unfold v0, prefix_length. destruct (prefix (ctx w)); reflexivity. }
  unfold events_of. rewrite (reinvoke_restart_eq _ _ _ Hcmd).
  fold w. fold w_in. change (root_or_self cmd) with to_call.
  repeat split.
  - unfold try_finally, call. cbn.
    destruct (command_reinvoke to_call call_hooks w_in). cbn.
    apply drop_app_length.
  - apply guarded_call_outcome.
  - unfold try_finally, call. cbn.
    destruct (command_reinvoke to_call call_hooks w_in); reflexivity.
  - rewrite Hv0. reflexivity.
  - rewrite Hv0. reflexivity.
  - change (invoked_parents (ctx w_in)) with (new_list w).
    change (lists w_in) with (<[new_list w := []]> (lists w)).
    apply lookup_insert_eq.
  - change (invoked_parents (ctx w_in)) with (new_list w).
    apply not_elem_of_dom. unfold new_list. apply is_fresh.
  - exact Hcmd.
Qed.

(** C6: on a context whose command is [None], [reinvoke] raises [ValueError]
    for every [call_hooks] and [restart], and the state it leaves is the
    state it was called in: no field of the context or of the view is
    written, and no collaborator is called. *)
Theorem reinvoke_without_command (call_hooks restart : bool) (s : St) :
  command (ctx (world s)) = None ->
  reinvoke call_hooks restart s = (Raise (ValueError "This context is not valid."), s).
Proof.
  intros Hcmd. unfold reinvoke, bind, gets. rewrite Hcmd. reflexivity.
Qed.

(** ** [valid] *)

(** C7: [valid] answers [True] exactly when [prefix] and [command] are both
    set, [False] in the three other cases, and leaves the state as it was. *)
Theorem valid_iff_prefix_and_command (s : St) :
  valid s = (Ok match prefix (ctx (world s)), command (ctx (world s)) with
                | Some _, Some _ => true
                | _, _ => false
                end, s) /\
  ((valid s).1 = Ok true <->
   prefix (ctx (world s)) <> None /\ command (ctx (world s)) <> None).
Proof.
  unfold valid, bind, gets, ret. cbn.
  destruct (prefix (ctx (world s))) as [p|], (command (ctx (world s))) as [c|];
    cbn; (split; [reflexivity|]); split; intros; try discriminate;
    try (split; discriminate); try (destruct H0 as [? ?]; congruence).
Qed.

(** ** The derived attributes *)

Lemma cached_property_stored {A} (attr : Context -> option A)
    (store : A -> Context -> Context) (compute : M A) (s : St) (v : A) :
  attr (ctx (world s)) = Some v ->
  cached_property attr store compute s = (Ok v, s).
Proof.
  intros E. unfold cached_property, bind, gets. cbn. rewrite E. reflexivity.
Qed.

Lemma cached_property_first {A} (attr : Context -> option A)
    (store : A -> Context -> Context) (first : World -> A) (s : St) :
  attr (ctx (world s)) = None ->
  cached_property attr store (gets first) s
  = (Ok (first (world s)),
     {| world := set_ctx (store (first (world s)) (ctx (world s))) (world s);
        trace := trace s |}).
Proof.
  intros E. unfold cached_property, bind, gets, modify_ctx, modify, ret. cbn.
  rewrite E. reflexivity.
Qed.

Lemma stable_simple {A} (attr : Context -> option A)
    (store : A -> Context -> Context) (first : World -> A) (s : St) :
  (forall v c, attr (store v c) = Some v) ->
  stable_attribute (cached_property attr store (gets first)) attr first s.
Proof.
  intros Hstore. unfold stable_attribute.
  destruct (attr (ctx (world s))) as [v|] eqn:E.
  - exists v. rewrite (cached_property_stored _ _ _ _ _ E). cbn.
    repeat split; [discriminate | exact E |].
    intros s2 E2. rewrite E in E2. apply cached_property_stored, E2.
  - exists (first (world s)). rewrite (cached_property_first _ _ _ _ E). cbn.
    repeat split; [apply Hstore |].
    intros s2 E2. rewrite Hstore in E2. apply cached_property_stored, E2.
Qed.

Lemma guild_run (s : St) :
  (guild s).1 = Ok (guild_now (world s)) /\
  me_attr (ctx (world (guild s).2)) = me_attr (ctx (world s)) /\
  guild_me (world (guild s).2) = guild_me (world s) /\
  bot (world (guild s).2) = bot (world s).
Proof.
  unfold guild, guild_now.
  destruct (guild_attr (ctx (world s))) as [g|] eqn:E.
  - rewrite (cached_property_stored _ _ _ _ _ E). repeat split.
  - rewrite (cached_property_first _ _ _ _ E). repeat split.
Qed.

(** C8: each of [guild], [channel], [author] and [me] is computed on the
    first access ([guild], [channel] and [author] from the message, [me] from
    the guild and the bot), stored in the context, and returned unchanged by
    every later access, in whatever state the message, the guilds and the
    bot are by then. *)
Theorem derived_attributes_are_cached (s : St) :
  stable_attribute guild guild_attr (fun w => msg_guild (msg w)) s /\
  stable_attribute channel channel_attr (fun w => msg_channel (msg w)) s /\
  stable_attribute author author_attr (fun w => msg_author (msg w)) s /\
  stable_attribute me me_attr
    (fun w => match guild_now w with
              | Some g => default PNone (guild_me w !! g)
              | None => user (bot w)
              end) s.
Proof.
  split; [|split; [|split]].
  - apply stable_simple. reflexivity.
  - apply stable_simple. reflexivity.
  - apply stable_simple. reflexivity.
  - unfold stable_attribute.
    destruct (me_attr (ctx (world s))) as [v|] eqn:E.
    + exists v. unfold me. rewrite (cached_property_stored _ _ _ _ _ E). cbn.
      repeat split; [discriminate | exact E |].
      intros s2 E2. rewrite E in E2. apply cached_property_stored, E2.
    + destruct (guild_run s) as (Hg & Hme & Hgm & Hbot).
      exists (match guild_now (world s) with
              | Some g => default PNone (guild_me (world s) !! g)
              | None => user (bot (world s))
              end).
      assert (Hrun : exists s1,
                 me s = (Ok (match guild_now (world s) with
                             | Some g => default PNone (guild_me (world s) !! g)
                             | None => user (bot (world s))
                             end), s1)
                 /\ me_attr (ctx (world s1))
                    = Some (match guild_now (world s) with
                            | Some g => default PNone (guild_me (world s) !! g)
                            | None => user (bot (world s))
                            end)).
      { unfold me, cached_property at 1, bind at 1, gets at 1. cbn. rewrite E.
        unfold bind at 1. unfold bind at 1.
        destruct (guild s) as [r s1] eqn:Eg. cbn in Hg, Hme, Hgm, Hbot. subst r.
        destruct (guild_now (world s)) as [g|]; cbn;
          rewrite ?Hgm, ?Hbot; eexists; split; reflexivity. }
      destruct Hrun as (s1 & Hrun & Hst). rewrite Hrun. cbn.
      repeat split; [exact Hst |].
      intros s2 E2. rewrite Hst in E2. apply cached_property_stored, E2.
Qed.

(** ** [send] *)

Lemma strip_unsupported_lookup (kw : kwargs_t) (k : string) :
  strip_unsupported kw !! k =
  if bool_decide (k = "nonce" \/ k = "stickers" \/ k = "reference" \/ k = "mention_author")
  then None else kw !! k.
Proof.
  unfold strip_unsupported. rewrite !lookup_delete.
  case_bool_decide as Hk.
  - repeat case_decide; reflexivity || (exfalso; intuition congruence).
  - repeat case_decide; reflexivity || (exfalso; apply Hk; auto).
Qed.

Lemma strip_unsupported_idemp (kw : kwargs_t) :
  strip_unsupported (strip_unsupported kw) = strip_unsupported kw.
Proof.
  apply map_eq. intros k. rewrite !strip_unsupported_lookup.
  case_bool_decide; reflexivity.
Qed.

Lemma strip_unsupported_insert_reference (kw : kwargs_t) (v : pyval) :
  strip_unsupported (<["reference" := v]> kw) = strip_unsupported kw.
Proof.
  apply map_eq. intros k. rewrite !strip_unsupported_lookup.
  case_bool_decide as Hk; [reflexivity|].
  rewrite lookup_insert_ne; [reflexivity|]. intros <-. apply Hk. auto.
Qed.

Lemma needs_followup_false (kw : kwargs_t) :
  needs_followup (strip_unsupported kw) = false <->
  kw !! "file" = None /\ kw !! "files" = None /\ kw !! "allowed_mentions" = None.
Proof.
  unfold needs_followup. cbn [existsb]. rewrite !strip_unsupported_lookup. cbn.
  rewrite !orb_false_iff, !bool_decide_eq_false, <- !eq_None_not_Some.
  tauto.
Qed.

Lemma send_without_interaction (content : pyval) (rm : bool) (eph : pyval)
    (kw : kwargs_t) (s : St) :
  interaction (ctx (world s)) = None ->
  send content rm eph kw s = super_send content kw s.
Proof.
  intros E. unfold send, bind, gets. cbn. rewrite E. reflexivity.
Qed.

Lemma send_with_interaction (content : pyval) (rm : bool) (eph : pyval)
    (kw : kwargs_t) (s : St) (i : Interaction) :
  interaction (ctx (world s)) = Some i ->
  send content rm eph kw s =
  if session_expired (response i) (clock (world s)) then super_send content kw s
  else if negb (rm || done (response i) || needs_followup (strip_unsupported kw)) then
         call (CallResponseSendMessage content eph (strip_unsupported kw))
              (response_send_message content eph (strip_unsupported kw)) s
       else if done (response i) then
         call (CallFollowupSend content eph (strip_unsupported kw))
              (followup_send content eph (strip_unsupported kw)) s
       else
         (call (CallResponseDefer eph) (response_defer eph) ;;;
          call (CallFollowupSend content eph (strip_unsupported kw))
               (followup_send content eph (strip_unsupported kw))) s.
Proof.
  intros E. unfold send, bind, gets. cbn. rewrite E.
  destruct (session_expired _ _); [reflexivity|].
  destruct (negb _); [reflexivity|].
  destruct (done (response i)); reflexivity.
Qed.

Lemma session_expired_true (r : InteractionResponse) (now : Z) :
  session_expired r now = true <->
  exists t, responded_at r = Some t /\ fifteen_minutes <= now - t.
Proof.
  unfold session_expired. destruct (responded_at r) as [t|].
  - rewrite bool_decide_eq_true. split.
    + intros Ht. exists t. auto.
    + intros (t' & [= <-] & Ht). exact Ht.
  - split; [discriminate|]. intros (t & [=] & _).
Qed.

Lemma plain_condition_dec (s : St) :
  plain_condition s <->
  match interaction (ctx (world s)) with
  | None => True
  | Some i => session_expired (response i) (clock (world s)) = true
  end.
Proof.
  unfold plain_condition. destruct (interaction (ctx (world s))) as [i|].
  - rewrite session_expired_true. split.
    + intros [[=] | (i' & t & [= <-] & Ht & Hle)]. eauto.
    + intros (t & Ht & Hle). right. eauto.
  - split; auto.
Qed.

Lemma events_of_call {A} (ev : event) (h : World -> result A * World) (s : St) :
  events_of (call ev h) s = [ev].
Proof. apply events_of_app, call_trace. Qed.

Lemma events_of_defer_followup (eph content : pyval) (kw : kwargs_t) (s : St) :
  exists rest,
    events_of (call (CallResponseDefer eph) (response_defer eph) ;;;
               call (CallFollowupSend content eph kw) (followup_send content eph kw)) s
    = CallResponseDefer eph :: rest.
Proof.
  unfold events_of, bind, call.
  destruct (response_defer eph (world s)) as [[[]|e] w1]; cbn.
  - destruct (followup_send content eph kw w1) as [r w2]. cbn.
    exists [CallFollowupSend content eph kw].
    rewrite <- (app_assoc (trace s)). apply drop_app_length.
  - exists []. apply drop_app_length.
Qed.

(** The calls of the interactive transport. *)
Lemma events_of_send_active (content : pyval) (rm : bool) (eph : pyval)
    (kw : kwargs_t) (s : St) (i : Interaction) :
  interaction (ctx (world s)) = Some i ->
  session_expired (response i) (clock (world s)) = false ->
  exists rest,
    events_of (send content rm eph kw) s
    = (if negb (rm || done (response i) || needs_followup (strip_unsupported kw))
       then CallResponseSendMessage content eph (strip_unsupported kw)
       else if done (response i)
            then CallFollowupSend content eph (strip_unsupported kw)
            else CallResponseDefer eph) :: rest.
Proof.
  intros Hi Hexp. unfold events_of.
  rewrite (send_with_interaction _ _ _ _ _ _ Hi), Hexp.
  destruct (negb _).
  - exists []. apply events_of_call.
  - destruct (done (response i)).
    + exists []. apply events_of_call.
    + apply events_of_defer_followup.
Qed.

(** C1, as the code has it: [send] takes the plain channel transport, with
    the keyword options as it received them, and returns its result, exactly
    when the context has no interaction or the interaction's first response
    is recorded and lies at least 15 minutes in the past.  A first response
    recorded exactly 15 minutes ago is already past the window. *)
Theorem send_plain_transport (content : pyval) (rm : bool) (eph : pyval)
    (kw : kwargs_t) (s : St) :
  (plain_condition s ->
   send content rm eph kw s
   = call (CallMessageableSend content kw) (messageable_send content kw) s) /\
  (plain_condition s <->
   events_of (send content rm eph kw) s = [CallMessageableSend content kw]) /\
  (forall i t,
     interaction (ctx (world s)) = Some i ->
     responded_at (response i) = Some t ->
     clock (world s) - t = fifteen_minutes ->
     plain_condition s).
Proof.
  assert (Hplain : plain_condition s ->
            send content rm eph kw s
            = call (CallMessageableSend content kw) (messageable_send content kw) s).
  { intros Hp. apply plain_condition_dec in Hp.
    destruct (interaction (ctx (world s))) as [i|] eqn:Hi.
    - rewrite (send_with_interaction _ _ _ _ _ _ Hi), Hp. reflexivity.
    - apply send_without_interaction, Hi. }
  split; [exact Hplain|]. split.
  - split.
    + intros Hp. unfold events_of. rewrite (Hplain Hp). apply events_of_call.
    + intros Hev. apply plain_condition_dec.
      destruct (interaction (ctx (world s))) as [i|] eqn:Hi; [|exact I].
      destruct (session_expired (response i) (clock (world s))) eqn:Hexp;
        [reflexivity|].
      destruct (events_of_send_active content rm eph kw s i Hi Hexp) as [rest Hr].
      rewrite Hr in Hev.
      destruct (negb _); [discriminate|]. destruct (done _); discriminate.
  - intros i t Hi Ht Hnow. right. exists i, t. repeat split; auto. lia.
Qed.

(** C3: with an interaction that is still in its window, the initial
    response [interaction.response.send_message] is used exactly when
    [return_message] is false, [is_done()] is false and none of [file],
    [files], [allowed_mentions] is among the options.  In every other case
    [interaction.followup.send] is used, and it is preceded by
    [interaction.response.defer(ephemeral=ephemeral)] when [is_done()] is
    false.  Both receive the options without [nonce], [stickers],
    [reference] and [mention_author]. *)
Theorem send_interactive_path (content : pyval) (rm : bool) (eph : pyval)
    (kw : kwargs_t) (s : St) (i : Interaction) :
  interaction (ctx (world s)) = Some i ->
  session_expired (response i) (clock (world s)) = false ->
  let kw' := strip_unsupported kw in
  let lightweight :=
    rm = false /\ done (response i) = false /\
    kw !! "file" = None /\ kw !! "files" = None /\ kw !! "allowed_mentions" = None in
  (lightweight <->
   events_of (send content rm eph kw) s = [CallResponseSendMessage content eph kw']) /\
  (lightweight ->
   send content rm eph kw s
   = call (CallResponseSendMessage content eph kw')
          (response_send_message content eph kw') s) /\
  (~ lightweight -> done (response i) = true ->
   send content rm eph kw s
   = call (CallFollowupSend content eph kw') (followup_send content eph kw') s) /\
  (~ lightweight -> done (response i) = false ->
   send content rm eph kw s
   = (call (CallResponseDefer eph) (response_defer eph) ;;;
      call (CallFollowupSend content eph kw') (followup_send content eph kw')) s).
Proof.
  intros Hi Hexp kw' lightweight.
  assert (Hl : lightweight <-> negb (rm || done (response i) || needs_followup kw') = true).
  { unfold lightweight, kw'. rewrite negb_true_iff, !orb_false_iff, needs_followup_false.
    tauto. }
  pose proof (send_with_interaction content rm eph kw s i Hi) as Hs.
  rewrite Hexp in Hs. fold kw' in Hs.
  destruct (events_of_send_active content rm eph kw s i Hi Hexp) as [rest Hr].
  fold kw' in Hr.
  destruct (negb (rm || done (response i) || needs_followup kw')) eqn:Hn.
  - assert (HL : lightweight) by (apply Hl; reflexivity).
    split; [|split; [|split]].
    + split; [|intros _; exact HL].
      intros _. unfold events_of. rewrite Hs. apply events_of_call.
    + intros _. exact Hs.
    + intros HnL. contradiction.
    + intros HnL. contradiction.
  - assert (HL : ~ lightweight) by (rewrite Hl; discriminate).
    split; [|split; [|split]].
    + split; [intros HL'; contradiction|].
      intros Hev. rewrite Hr in Hev. destruct (done (response i)); discriminate.
    + intros HL'. contradiction.
    + intros _ Hd. rewrite Hd in Hs. exact Hs.
    + intros _ Hd. rewrite Hd in Hs. exact Hs.
Qed.

(** ** [reply] *)

Lemma send_active_strips (content : pyval) (rm : bool) (eph : pyval)
    (kw1 kw2 : kwargs_t) (s : St) (i : Interaction) :
  interaction (ctx (world s)) = Some i ->
  session_expired (response i) (clock (world s)) = false ->
  strip_unsupported kw1 = strip_unsupported kw2 ->
  send content rm eph kw1 s = send content rm eph kw2 s.
Proof.
  intros Hi Hexp Hk.
  rewrite !(send_with_interaction _ _ _ _ _ _ Hi), Hexp, Hk. reflexivity.
Qed.

(** C9, as the code has it: when the options of [reply] hold no [reference]
    of their own, [reply] is [send] with the same content and options and
    the added option [reference], which refers to the message of the
    context (an [ephemeral] among the options is the [ephemeral] of [send]).
    When the interactive transport is taken, that call is in turn the same
    as a [send] of the options without [reference], [nonce], [stickers] and
    [mention_author]: they are dropped and nothing is raised for them. *)
Theorem reply_is_send_with_reference (content : pyval) (rm : bool)
    (kw : kwargs_t) (s : St) :
  kw !! "reference" = None ->
  let eph := default (PBool false) (kw !! "ephemeral") in
  let opts := delete "ephemeral" kw in
  let m := message (ctx (world s)) in
  reply content rm kw s = send content rm eph (<["reference" := PObj m]> opts) s /\
  (forall i,
     interaction (ctx (world s)) = Some i ->
     session_expired (response i) (clock (world s)) = false ->
     reply content rm kw s = send content rm eph (strip_unsupported opts) s /\
     strip_unsupported opts !! "reference" = None /\
     strip_unsupported opts !! "nonce" = None /\
     strip_unsupported opts !! "stickers" = None /\
     strip_unsupported opts !! "mention_author" = None /\
     exists rest,
       events_of (reply content rm kw) s
       = (if negb (rm || done (response i) || needs_followup (strip_unsupported opts))
          then CallResponseSendMessage content eph (strip_unsupported opts)
          else if done (response i)
               then CallFollowupSend content eph (strip_unsupported opts)
               else CallResponseDefer eph) :: rest).
Proof.
  intros Href eph opts m.
  assert (Hreply : reply content rm kw s
                   = send content rm eph (<["reference" := PObj m]> opts) s).
  { unfold reply, bind at 1, gets at 1. cbn.
    rewrite bool_decide_eq_false_2; [reflexivity|].
    rewrite Href. intros [? [=]]. }
  split; [exact Hreply|].
  intros i Hi Hexp.
  assert (Hstrip : reply content rm kw s = send content rm eph (strip_unsupported opts) s).
  { rewrite Hreply. apply (send_active_strips _ _ _ _ _ _ i Hi Hexp).
    rewrite strip_unsupported_insert_reference, strip_unsupported_idemp. reflexivity. }
  split; [exact Hstrip|].
  rewrite !strip_unsupported_lookup. cbn.
  repeat split.
  destruct (events_of_send_active content rm eph (strip_unsupported opts) s i Hi Hexp)
    as [rest Hr].
  exists rest. unfold events_of in *. rewrite Hstrip.
  rewrite strip_unsupported_idemp in Hr. exact Hr.
Qed.

(** ** [send_help] *)


(** *** The help command of the bot is left alone *)

Lemma keep_call {A} (h : loc) (w0 : World) (ev : event)
    (f : World -> result A * World) (s : St) :
  keeps_help_command h f ->
  help_command_as_in h w0 (world s) ->
  help_command_as_in h w0 (world (call ev f s).2).
Proof.
  intros Hf [Hb Ho]. rewrite call_world.
  destruct (Hf (world s) Hb) as [Hb' Ho'].
  split; [exact Hb' | congruence].
Qed.

Lemma keep_bind {A B} (h : loc) (w0 : World) (m : M A) (k : A -> M B) (s : St) :
  help_command_as_in h w0 (world (m s).2) ->
  (forall a s1, m s = (Ok a, s1) -> help_command_as_in h w0 (world (k a s1).2)) ->
  help_command_as_in h w0 (world (bind m k s).2).
Proof.
  intros Hm Hk. unfold bind. destruct (m s) as [[a|e] s1] eqn:E.
  - apply (Hk a s1). reflexivity.
  - exact Hm.
Qed.

Lemma keep_try_except {A} (h : loc) (w0 : World) (body : M A)
    (handler : exn -> M A) (s : St) :
  help_command_as_in h w0 (world (body s).2) ->
  (forall e s1, body s = (Raise e, s1) ->
                help_command_as_in h w0 (world (handler e s1).2)) ->
  help_command_as_in h w0 (world (try_except_CommandError body handler s).2).
Proof.
  intros Hb Hh. unfold try_except_CommandError.
  destruct (body s) as [[a|e] s1] eqn:E.
  - exact Hb.
  - destruct (is_CommandError e).
    + apply (Hh e s1). reflexivity.
    + exact Hb.
Qed.

Lemma keep_set_hc_context (h c : loc) (self : objid) (w0 w : World) :
  c <> h ->
  help_command_as_in h w0 w ->
  help_command_as_in h w0 (set_hc_context c self w).
Proof.
  intros Hne [Hb Ho]. split; [exact Hb|].
  unfold set_hc_context. cbn. rewrite lookup_alter_ne; [exact Ho | exact Hne].
Qed.

Lemma keep_help_error (h c : loc) (w0 : World) (e : exn) (s : St) :
  HelpCollaboratorsKeep h ->
  help_command_as_in h w0 (world s) ->
  help_command_as_in h w0 (world (help_error c e s).2).
Proof.
  intros K Hs. unfold help_error. apply keep_bind.
  - apply keep_call; [apply K | exact Hs].
  - intros [] s1 E. cbn.
    replace s1 with (call (CallOnHelpCommandError c e) (on_help_command_error c e) s).2
      by (rewrite E; reflexivity).
    apply keep_call; [apply K | exact Hs].
Qed.

Lemma keep_send_entity_help (h c : loc) (w0 : World) (o : pyobject) (s : St) :
  HelpCollaboratorsKeep h ->
  help_command_as_in h w0 (world s) ->
  help_command_as_in h w0 (world (send_entity_help c o s).2).
Proof.
  intros K Hs. unfold send_entity_help.
  destruct (has_cog_commands o); [apply keep_call; [apply K | exact Hs]|].
  destruct (obj_class o).
  - exact Hs.
  - apply keep_call; [apply K | exact Hs].
  - apply keep_call; [apply K | exact Hs].
Qed.

(** C10: [send_help] never changes the help command of the bot.  The only
    write of [send_help] itself is [cmd.context = self], on the object that
    [copy()] returned; so, with collaborators that leave the bot's help
    command alone and a [copy()] that returns another object than the one it
    copies, [bot.help_command] refers to the same object after the call and
    this object, its [context] included, is as it was. *)
Theorem send_help_keeps_help_command (args : list entity) (s : St) :
  (forall h, help_command (bot (world s)) = Some h -> HelpCollaboratorsKeep h) ->
  help_command (bot (world (send_help args s).2)) = help_command (bot (world s)) /\
  forall h,
    help_command (bot (world s)) = Some h ->
    help_commands (world (send_help args s).2) !! h = help_commands (world s) !! h /\
    hc_context <$> help_commands (world (send_help args s).2) !! h
    = hc_context <$> help_commands (world s) !! h.
Proof.
  intros HK.
  destruct (help_command (bot (world s))) as [h|] eqn:Hh.
  2:{ assert (E : send_help args s = (Ok PNone, s)).
      { unfold send_help, bind, gets. cbn. rewrite Hh. reflexivity. }
      rewrite E. cbn. split; [exact Hh|]. intros h [=]. }
  specialize (HK h eq_refl).
  assert (Inv : help_command_as_in h (world s) (world (send_help args s).2)).
  { assert (H0 : help_command_as_in h (world s) (world s)) by (split; auto).
    unfold send_help. rewrite !bind_gets, Hh.
    apply keep_bind; [apply keep_call; [apply HK | exact H0]|].
    intros c s1 Ecopy.
    assert (H1 : help_command_as_in h (world s) (world s1)).
    { replace s1 with (call (CallHelpCopy h) (help_copy h) s).2
        by (rewrite Ecopy; reflexivity).
      apply keep_call; [apply HK | exact H0]. }
    assert (Hne : c <> h).
    { unfold call in Ecopy.
      destruct (help_copy h (world s)) as [r w1] eqn:E. injection Ecopy as -> _.
      apply (copy_is_new h HK _ _ _ E). }
    rewrite bind_modify.
    set (s2 := {| world := set_hc_context c (self_id (ctx (world s))) (world s1);
                  trace := trace s1 |}).
    assert (H2 : help_command_as_in h (world s) (world s2))
      by (apply keep_set_hc_context; assumption).
    clearbody s2. clear Ecopy H1 s1 H0.
    destruct args as [|arg rest].
    - apply keep_bind; [apply keep_call; [apply HK | exact H2]|].
      intros [] s3 E3.
      assert (H3 : help_command_as_in h (world s) (world s3)).
      { replace s3 with (call (CallPrepareHelpCommand c None)
                              (prepare_help_command c None) s2).2
          by (rewrite E3; reflexivity).
        apply keep_call; [apply HK | exact H2]. }
      apply keep_bind; [apply keep_call; [apply HK | exact H3]|].
      intros mapping s4 E4.
      assert (H4 : help_command_as_in h (world s) (world s4)).
      { replace s4 with (call (CallGetBotMapping c) (get_bot_mapping c) s3).2
          by (rewrite E4; reflexivity).
        apply keep_call; [apply HK | exact H3]. }
      apply keep_try_except; [apply keep_call; [apply HK | exact H4]|].
      intros e s5 E5. apply keep_help_error; [exact HK|].
      replace s5 with (call (CallInjectedSendBotHelp c mapping)
                            (injected_send_bot_help c mapping) s4).2
        by (rewrite E5; reflexivity).
      apply keep_call; [apply HK | exact H4].
    - apply keep_bind.
      { destruct arg; exact H2. }
      intros o s3 E3.
      assert (s3 = s2) as ->.
      { destruct arg; cbn in E3; unfold gets, ret in E3; congruence. }
      destruct o as [o|]; [|exact H2].
      destruct (qualified_name o) as [name|]; [|exact H2].
      apply keep_bind; [apply keep_call; [apply HK | exact H2]|].
      intros [] s4 E4.
      assert (H4 : help_command_as_in h (world s) (world s4)).
      { replace s4 with (call (CallPrepareHelpCommand c (Some name))
                              (prepare_help_command c (Some name)) s2).2
          by (rewrite E4; reflexivity).
        apply keep_call; [apply HK | exact H2]. }
      apply keep_try_except; [apply keep_send_entity_help; assumption|].
      intros e s5 E5. apply keep_help_error; [exact HK|].
      replace s5 with (send_entity_help c o s4).2 by (rewrite E5; reflexivity).
      apply keep_send_entity_help; assumption. }
  destruct Inv as [Hb Ho].
  split; [exact Hb|].
  intros h' [= <-]. split; [exact Ho | rewrite Ho; reflexivity].
Qed.

End Properties.

(** * Further properties *)

Section MoreProperties.

Context `{Collaborators} `{Attributes}.

(** ** [reinvoke] *)

(** X1: without [restart], [reinvoke] calls the command of the context
    itself, once, in the store as it is: the cursor, [invoked_with] and the
    list of parents are not reset before the call. *)
Theorem reinvoke_resumes_in_place (call_hooks : bool) (s : St) (cmd : Command) :
  command (ctx (world s)) = Some cmd ->
  events_of (reinvoke call_hooks false) s = [CallCommandReinvoke cmd call_hooks] /\
  (reinvoke call_hooks false s).1 = (command_reinvoke cmd call_hooks (world s)).1 /\
  lists (world (reinvoke call_hooks false s).2)
  = lists (command_reinvoke cmd call_hooks (world s)).2.
Proof.
  intros Hcmd. unfold events_of. rewrite (reinvoke_resume_eq _ _ _ Hcmd).
  unfold try_finally, call.
  destruct (command_reinvoke cmd call_hooks (world s)) as [r w1]. cbn.
  split; [apply drop_app_length|]. split; reflexivity.
Qed.

(** X2: [reinvoke] reverts nothing but the seven values of its snapshot.
    [args], [kwargs], [command_failed], [current_parameter], [prefix], the
    interaction, the stored derived attributes, the text of the view and
    the rest of the store are, after the call, as the command left them. *)
Theorem reinvoke_keeps_what_the_command_left (call_hooks restart : bool)
    (s : St) (cmd : Command) :
  command (ctx (world s)) = Some cmd ->
  let w' := world (reinvoke call_hooks restart s).2 in
  let w_out := (command_reinvoke (if restart then root_or_self cmd else cmd) call_hooks
                  (if restart then restart_world (world s) else world s)).2 in
  args (ctx w') = args (ctx w_out) /\
  kwargs (ctx w') = kwargs (ctx w_out) /\
  command_failed (ctx w') = command_failed (ctx w_out) /\
  current_parameter (ctx w') = current_parameter (ctx w_out) /\
  prefix (ctx w') = prefix (ctx w_out) /\
  interaction (ctx w') = interaction (ctx w_out) /\
  guild_attr (ctx w') = guild_attr (ctx w_out) /\
  channel_attr (ctx w') = channel_attr (ctx w_out) /\
  author_attr (ctx w') = author_attr (ctx w_out) /\
  me_attr (ctx w') = me_attr (ctx w_out) /\
  buffer (view w') = buffer (view w_out) /\
  lists w' = lists w_out /\ bot w' = bot w_out /\
  help_commands w' = help_commands w_out /\ msg w' = msg w_out /\
  guild_me w' = guild_me w_out /\ clock w' = clock w_out.
Proof.
  intros Hcmd. cbv zeta. destruct restart.
  - rewrite (reinvoke_restart_eq _ _ _ Hcmd). unfold try_finally, call. cbn.
    destruct (command_reinvoke _ _ _) as [r w1]. cbn. repeat split.
  - rewrite (reinvoke_resume_eq _ _ _ Hcmd). unfold try_finally, call.
    destruct (command_reinvoke _ _ _) as [r w1]. cbn. repeat split.
Qed.

(** X3: with [restart] on a context that has no prefix, or an empty one,
    the root word is read from position 0 of the text. *)
Theorem reinvoke_restart_without_prefix (call_hooks : bool) (s : St) (cmd : Command) :
  command (ctx (world s)) = Some cmd ->
  prefix (ctx (world s)) = None \/ prefix (ctx (world s)) = Some "" ->
  let v0 := {| index := 0; previous := 0; buffer := buffer (view (world s)) |} in
  exists w_in,
    (reinvoke call_hooks true s).1
    = (command_reinvoke (root_or_self cmd) call_hooks w_in).1 /\
    view w_in = (get_word v0).2 /\
    invoked_with (ctx w_in) = Some (get_word v0).1.
Proof.
  intros Hcmd Hp v0. exists (restart_world (world s)).
  rewrite (reinvoke_restart_eq _ _ _ Hcmd).
  split; [apply guarded_call_outcome|].
  assert (Hv : {| index := prefix_length (prefix (ctx (world s))); previous := 0;
                  buffer := buffer (view (world s)) |} = v0).
  { destruct Hp as [-> | ->]; reflexivity. }
  unfold restart_world. cbn. rewrite Hv. split; reflexivity.
Qed.

(** ** The derived attributes *)

Lemma same_but_cache_refl (w : World) : same_but_cache w w.
Proof. unfold same_but_cache. repeat split. Qed.

Lemma same_but_cache_trans (w1 w2 w3 : World) :
  same_but_cache w1 w2 -> same_but_cache w2 w3 -> same_but_cache w1 w3.
Proof.
  unfold same_but_cache. intros H12 H23.
  repeat match goal with
         | H' : _ /\ _ |- _ => destruct H'
         end.
  repeat split; congruence.
Qed.

Lemma cached_simple_quiet {A} (attr : Context -> option A)
    (store : A -> Context -> Context) (first : World -> A) (s : St) :
  (forall v w, same_but_cache w (set_ctx (store v (ctx w)) w)) ->
  trace (cached_property attr store (gets first) s).2 = trace s /\
  same_but_cache (world s) (world (cached_property attr store (gets first) s).2).
Proof.
  intros Hstore. destruct (attr (ctx (world s))) as [v|] eqn:E.
  - rewrite (cached_property_stored _ _ _ _ _ E). split; [reflexivity|].
    apply same_but_cache_refl.
  - rewrite (cached_property_first _ _ _ _ E). split; [reflexivity|].
    apply Hstore.
Qed.

Lemma guild_quiet (s : St) :
  trace (guild s).2 = trace s /\ same_but_cache (world s) (world (guild s).2).
Proof.
  apply cached_simple_quiet. intros v w. unfold same_but_cache. repeat split.
Qed.

Lemma channel_quiet (s : St) :
  trace (channel s).2 = trace s /\ same_but_cache (world s) (world (channel s).2).
Proof.
  apply cached_simple_quiet. intros v w. unfold same_but_cache. repeat split.
Qed.

Lemma author_quiet (s : St) :
  trace (author s).2 = trace s /\ same_but_cache (world s) (world (author s).2).
Proof.
  apply cached_simple_quiet. intros v w. unfold same_but_cache. repeat split.
Qed.

(** What the first read of [me] does: it reads [guild], then stores the
    member or the user. *)
Lemma me_first (s : St) :
  me_attr (ctx (world s)) = None ->
  let v := match guild_now (world s) with
           | Some g => default PNone (guild_me (world s) !! g)
           | None => user (bot (world s))
           end in
  me s = (Ok v, {| world := set_ctx (set_me_attr v (ctx (world (guild s).2)))
                                    (world (guild s).2);
                   trace := trace (guild s).2 |}).
Proof.
  intros E v. destruct (guild_run s) as (Hg & Hme & Hgm & Hbot).
  destruct (guild s) as [r s1] eqn:Eg. cbn in Hg, Hme, Hgm, Hbot. subst r.
  unfold me, cached_property. rewrite bind_gets, E.
  unfold bind at 1. unfold bind at 1. rewrite Eg.
  unfold v. destruct (guild_now (world s)) as [g|]; cbn;
    rewrite ?Hgm, ?Hbot; reflexivity.
Qed.

Lemma me_quiet (s : St) :
  trace (me s).2 = trace s /\ same_but_cache (world s) (world (me s).2).
Proof.
  destruct (me_attr (ctx (world s))) as [v|] eqn:E.
  - unfold me. rewrite (cached_property_stored _ _ _ _ _ E).
    split; [reflexivity | apply same_but_cache_refl].
  - rewrite (me_first s E). cbn. destruct (guild_quiet s) as [Ht Hs].
    split; [exact Ht|].
    eapply same_but_cache_trans; [exact Hs|].
    unfold same_but_cache. repeat split.
Qed.

(** X4: reading [guild], [channel], [author] or [me] calls no collaborator
    and changes nothing in the store but the stored derived attributes. *)
Theorem derived_attributes_only_fill_the_cache (s : St) :
  (trace (guild s).2 = trace s /\ same_but_cache (world s) (world (guild s).2)) /\
  (trace (channel s).2 = trace s /\ same_but_cache (world s) (world (channel s).2)) /\
  (trace (author s).2 = trace s /\ same_but_cache (world s) (world (author s).2)) /\
  (trace (me s).2 = trace s /\ same_but_cache (world s) (world (me s).2)).
Proof.
  split; [apply guild_quiet|]. split; [apply channel_quiet|].
  split; [apply author_quiet | apply me_quiet].
Qed.

(** X5: the first read of [me] reads [guild] on the way and so stores it
    too: a read of [guild] right after returns the guild that [me] was
    computed from, and writes nothing. *)
Theorem me_stores_guild (s : St) :
  me_attr (ctx (world s)) = None ->
  guild (me s).2 = (Ok (guild_now (world s)), (me s).2) /\
  (me s).1 = Ok match guild_now (world s) with
                | Some g => default PNone (guild_me (world s) !! g)
                | None => user (bot (world s))
                end.
Proof.
  intros E. rewrite (me_first s E). cbn [fst snd]. split; [|reflexivity].
  unfold guild at 1. apply cached_property_stored.
  cbn [world ctx set_ctx set_me_attr guild_attr].
  unfold guild, guild_now.
  destruct (guild_attr (ctx (world s))) as [g|] eqn:Eg.
  - rewrite (cached_property_stored _ _ _ _ _ Eg). cbn. exact Eg.
  - rewrite (cached_property_first _ _ _ _ Eg). reflexivity.
Qed.

(** X6: [author_permissions] is computed anew on every call, in the store
    of that call, but always for the channel and the author the context has
    stored: once they are stored, what the message says later is not
    looked at. *)
Theorem author_permissions_for_stored_channel_and_author (s : St) :
  exists c a,
    (author_permissions s).1
    = Ok (permissions_for (world (author_permissions s).2) c a) /\
    channel_attr (ctx (world (author_permissions s).2)) = Some c /\
    author_attr (ctx (world (author_permissions s).2)) = Some a /\
    forall s2,
      channel_attr (ctx (world s2)) = Some c ->
      author_attr (ctx (world s2)) = Some a ->
      author_permissions s2 = (Ok (permissions_for (world s2) c a), s2).
Proof.
  assert (Hlater : forall c a s2,
             channel_attr (ctx (world s2)) = Some c ->
             author_attr (ctx (world s2)) = Some a ->
             author_permissions s2 = (Ok (permissions_for (world s2) c a), s2)).
  { intros c a s2 Hc Ha. unfold author_permissions, bind, channel, author.
    rewrite (cached_property_stored _ _ _ _ _ Hc).
    rewrite (cached_property_stored _ _ _ _ _ Ha). reflexivity. }
  destruct (stable_simple channel_attr set_channel_attr
              (fun w => msg_channel (msg w)) s (fun _ _ => eq_refl))
    as (c & Hc1 & _ & Hc2 & _).
  fold channel in Hc1, Hc2.
  destruct (channel s) as [rc s1] eqn:Ec. cbn in Hc1, Hc2. subst rc.
  destruct (stable_simple author_attr set_author_attr
              (fun w => msg_author (msg w)) s1 (fun _ _ => eq_refl))
    as (a & Ha1 & _ & Ha2 & _).
  fold author in Ha1, Ha2.
  assert (Hc3 : channel_attr (ctx (world (author s1).2)) = Some c).
  { unfold author.
    destruct (author_attr (ctx (world s1))) as [a0|] eqn:Ea.
    - rewrite (cached_property_stored _ _ _ _ _ Ea). exact Hc2.
    - rewrite (cached_property_first _ _ _ _ Ea). exact Hc2. }
  destruct (author s1) as [ra s2] eqn:Ea. cbn in Ha1, Ha2, Hc3. subst ra.
  exists c, a.
  assert (Hrun : author_permissions s = (Ok (permissions_for (world s2) c a), s2)).
  { unfold author_permissions, bind. rewrite Ec, Ea. reflexivity. }
  rewrite Hrun. cbn. repeat split; try assumption.
  intros s3. apply Hlater.
Qed.

(** ** [clean_prefix] *)

#[local] Arguments String.append !s1 s2 : simpl nomatch.

Lemma append_assoc (a b c : string) : (a +:+ b) +:+ c = a +:+ (b +:+ c).
Proof. induction a as [|x a IH]; simpl; [reflexivity | f_equal; exact IH]. Qed.

Lemma append_length (a b : string) :
  String.length (a +:+ b) = (String.length a + String.length b)%nat.
Proof. induction a as [|x a IH]; simpl; [reflexivity | f_equal; exact IH]. Qed.

Lemma strip_prefix_append (p rest : string) : strip_prefix p (p +:+ rest) = Some rest.
Proof.
  induction p as [|a p IH]; cbn; [reflexivity|].
  rewrite bool_decide_eq_true_2 by reflexivity. exact IH.
Qed.

Lemma match_mention_lt (id : string) (c : ascii) (s : string) :
  c <> "<"%char -> match_mention id (String c s) = None.
Proof.
  intros Hc. unfold match_mention. cbn.
  rewrite bool_decide_eq_false_2; [reflexivity|]. intros E. apply Hc. symmetry. exact E.
Qed.

Lemma sub_from_no_lt (id repl s : string) :
  no_lt s = true -> sub_from id repl 0 s = s.
Proof.
  induction s as [|c s IH]; cbn [no_lt sub_from]; [reflexivity|].
  intros Hs. apply andb_true_iff in Hs as [Hc Hs].
  apply negb_true_iff, bool_decide_eq_false in Hc.
  rewrite (match_mention_lt id c s Hc), (IH Hs). reflexivity.
Qed.

Lemma sub_from_skip (id repl p rest : string) :
  sub_from id repl (String.length p) (p +:+ rest) = sub_from id repl 0 rest.
Proof.
  induction p as [|a p IH]; cbn.
  - destruct rest; reflexivity.
  - exact IH.
Qed.

(** A match at the start of the text is replaced, and the scan goes on
    after it. *)
Lemma sub_from_match (id repl m rest : string) (c : ascii) :
  match_mention id (String c m +:+ rest) = Some rest ->
  sub_from id repl 0 (String c m +:+ rest) = repl +:+ sub_from id repl 0 rest.
Proof.
  intros Hm. cbn [append sub_from]. cbn [append] in Hm. rewrite Hm.
  f_equal. cbn [String.length]. rewrite append_length.
  replace (S (String.length m + String.length rest) - String.length rest - 1)%nat
    with (String.length m) by lia.
  apply sub_from_skip.
Qed.

Lemma is_digit_pretty_N_char (x : N) : is_digit (pretty_N_char x) = true.
Proof.
  unfold pretty_N_char. repeat case_match; reflexivity.
Qed.

Lemma pretty_N_go_digits (x : N) (s : string) :
  exists t, pretty_N_go x s = t +:+ s /\ all_digits t = true.
Proof.
  revert s. induction (N.lt_wf_0 x) as [x _ IH]. intros s.
  destruct (decide (x = 0)%N) as [->|Hx].
  - exists "". rewrite pretty_N_go_0. split; reflexivity.
  - rewrite pretty_N_go_step by lia.
    destruct (IH (x `div` 10)%N (N.div_lt x 10 ltac:(lia) eq_refl)
                 (String (pretty_N_char (x `mod` 10)) s)) as (t & Ht & Hd).
    exists (t +:+ String (pretty_N_char (x `mod` 10)) "").
    split.
    + rewrite Ht, append_assoc. reflexivity.
    + clear Ht. induction t as [|a t IHt]; cbn.
      * rewrite is_digit_pretty_N_char. reflexivity.
      * cbn in Hd. apply andb_true_iff in Hd as [Ha Hd].
        rewrite Ha. cbn. apply IHt, Hd.
Qed.

Lemma pretty_N_digits (x : N) : all_digits (pretty x) = true /\ pretty x <> "".
Proof.
  unfold pretty, pretty_N. destruct (decide (x = 0)%N) as [->|Hx].
  - split; [reflexivity | discriminate].
  - rewrite pretty_N_go_step by lia.
    destruct (pretty_N_go_digits (x `div` 10)%N
                (String (pretty_N_char (x `mod` 10)) "")) as (t & Ht & Hd).
    rewrite Ht. split.
    + clear Ht. induction t as [|a t IHt]; cbn.
      * rewrite is_digit_pretty_N_char. reflexivity.
      * cbn in Hd. apply andb_true_iff in Hd as [Ha Hd].
        rewrite Ha. cbn. apply IHt, Hd.
    + destruct t; discriminate.
Qed.

Lemma digit_not_special (c : ascii) :
  is_digit c = true -> c <> "<"%char /\ c <> ">"%char /\ c <> "!"%char.
Proof.
  intros Hc. repeat split; intros ->; vm_compute in Hc; discriminate.
Qed.

Lemma all_digits_no_lt (id rest : string) :
  all_digits id = true -> no_lt rest = true -> no_lt (id +:+ rest) = true.
Proof.
  intros Hd Hr. induction id as [|a id IH]; cbn; [exact Hr|].
  cbn in Hd. apply andb_true_iff in Hd as [Ha Hd].
  destruct (digit_not_special a Ha) as (Hlt & _ & _).
  rewrite (bool_decide_eq_false_2 _ Hlt). cbn. apply IH, Hd.
Qed.

Lemma strip_bang_digits (id rest : string) :
  all_digits id = true -> id <> "" -> strip_prefix "!" (id +:+ rest) = None.
Proof.
  intros Hd Hne. destruct id as [|a id]; [congruence|]. cbn.
  cbn in Hd. apply andb_true_iff in Hd as [Ha _].
  destruct (digit_not_special a Ha) as (_ & _ & Hb).
  rewrite bool_decide_eq_false_2; [reflexivity|]. intros E. apply Hb. symmetry. exact E.
Qed.

(** Two numbers followed by [>]: one is a prefix of the other only when
    they are the same. *)
Lemma strip_digits_same (id id' rest : string) :
  all_digits id = true -> all_digits id' = true ->
  strip_prefix (id +:+ ">") (id' +:+ ">" +:+ rest) <> None -> id = id'.
Proof.
  revert id'. induction id as [|a id IH]; intros id' Hd Hd' Hs.
  - destruct id' as [|b id']; [reflexivity|]. exfalso. cbn in Hs, Hd'.
    apply andb_true_iff in Hd' as [Hb _].
    destruct (digit_not_special b Hb) as (_ & Hgt & _).
    rewrite bool_decide_eq_false_2 in Hs; [congruence|].
    intros E. apply Hgt. symmetry. exact E.
  - cbn in Hd. apply andb_true_iff in Hd as [Ha Hd].
    destruct id' as [|b id']; cbn in Hs.
    + exfalso. destruct (digit_not_special a Ha) as (_ & Hgt & _).
      rewrite bool_decide_eq_false_2 in Hs; [congruence | exact Hgt].
    + cbn in Hd'. apply andb_true_iff in Hd' as [Hb Hd'].
      case_bool_decide as Hab; [|congruence]. subst b.
      f_equal. apply IH; assumption.
Qed.

Lemma expand_escape (name : string) :
  expand_template (escape_backslashes name) = name.
Proof.
  induction name as [|c name IH]; cbn; [reflexivity|].
  case_bool_decide as Hc.
  - subst c. cbn. rewrite IH. reflexivity.
  - cbn. rewrite bool_decide_eq_false_2 by exact Hc. rewrite IH. reflexivity.
Qed.

Lemma replacement_is_name (name : string) :
  expand_template ("@" +:+ escape_backslashes name) = "@" +:+ name.
Proof. cbn. rewrite expand_escape. reflexivity. Qed.

Lemma clean_prefix_run (s : St) (p : string) (u : objid) :
  prefix (ctx (world s)) = Some p ->
  (me s).1 = Ok (PObj u) ->
  (clean_prefix s).1
  = Ok (pattern_sub (pretty (user_id u)) ("@" +:+ display_name u) p).
Proof.
  intros Hp Hme. unfold clean_prefix. rewrite bind_gets, Hp. unfold bind.
  destruct (me s) as [r s1]. cbn in Hme. subst r.
  rewrite replacement_is_name. reflexivity.
Qed.

(** X7: [clean_prefix] calls no collaborator and changes nothing in the
    store but the stored derived attributes.  Without a prefix it returns
    the empty string and reads nothing, so nothing is stored; with a prefix
    it reads [me], which is stored from then on. *)
Theorem clean_prefix_reads_me (s : St) :
  (prefix (ctx (world s)) = None -> clean_prefix s = (Ok "", s)) /\
  (prefix (ctx (world s)) <> None ->
   me_attr (ctx (world (clean_prefix s).2)) <> None) /\
  trace (clean_prefix s).2 = trace s /\
  same_but_cache (world s) (world (clean_prefix s).2).
Proof.
  unfold clean_prefix. rewrite bind_gets.
  destruct (prefix (ctx (world s))) as [p|] eqn:Hp.
  - split; [discriminate|].
    destruct (me_quiet s) as [Ht Hs].
    assert (Hst : me_attr (ctx (world (me s).2)) <> None).
    { destruct (me_attr (ctx (world s))) as [v|] eqn:E.
      - unfold me. rewrite (cached_property_stored _ _ _ _ _ E). cbn. congruence.
      - rewrite (me_first s E). discriminate. }
    unfold bind. destruct (me s) as [[v|e] s1]; cbn in *.
    + destruct v; cbn; auto.
    + auto.
  - split; [reflexivity|]. split; [congruence|].
    split; [reflexivity | apply same_but_cache_refl].
Qed.

(** X8: a prefix without [<] holds no mention and is returned as it is. *)
Theorem clean_prefix_of_plain_text (s : St) (p : string) (u : objid) :
  prefix (ctx (world s)) = Some p ->
  (me s).1 = Ok (PObj u) ->
  no_lt p = true ->
  (clean_prefix s).1 = Ok p.
Proof.
  intros Hp Hme Hlt. rewrite (clean_prefix_run s p u Hp Hme).
  unfold pattern_sub. rewrite sub_from_no_lt by exact Hlt. reflexivity.
Qed.

Lemma append_empty_l (x : string) : "" +:+ x = x.
Proof. reflexivity. Qed.

Lemma mention_shape (bang id rest : string) :
  "<@" +:+ bang +:+ id +:+ ">" +:+ rest
  = String "<" ("@" +:+ bang +:+ id +:+ ">") +:+ rest.
Proof.
  change (String "<" ("@" +:+ bang +:+ id +:+ ">"))
    with ("<@" +:+ bang +:+ id +:+ ">").
  rewrite !append_assoc. reflexivity.
Qed.

(** The pattern with the id [id] matches a mention of [id], in both forms. *)
Lemma match_mention_same (bang id rest : string) :
  bang = "" \/ bang = "!" ->
  all_digits id = true -> id <> "" ->
  match_mention id ("<@" +:+ bang +:+ id +:+ ">" +:+ rest) = Some rest.
Proof.
  intros Hb Hd Hne. unfold match_mention. rewrite strip_prefix_append.
  destruct Hb as [-> | ->].
  - rewrite append_empty_l, (strip_bang_digits id (">" +:+ rest) Hd Hne).
    rewrite <- append_assoc. apply strip_prefix_append.
  - rewrite strip_prefix_append. rewrite <- append_assoc, strip_prefix_append.
    reflexivity.
Qed.

(** It matches a mention of no other id. *)
Lemma match_mention_other (bang id id' rest : string) :
  bang = "" \/ bang = "!" ->
  all_digits id = true -> id <> "" ->
  all_digits id' = true -> id' <> "" ->
  id <> id' ->
  match_mention id ("<@" +:+ bang +:+ id' +:+ ">" +:+ rest) = None.
Proof.
  intros Hb Hd Hne Hd' Hne' Hdiff.
  assert (Hno : forall x, strip_prefix (id +:+ ">") (id' +:+ ">" +:+ x) = None).
  { intros x. destruct (strip_prefix _ _) eqn:E; [|reflexivity].
    exfalso. apply Hdiff. apply (strip_digits_same id id' x Hd Hd'). congruence. }
  assert (Hbang : forall x, strip_prefix (id +:+ ">") ("!" +:+ x) = None).
  { intros x. destruct id as [|a id0]; [congruence|].
    cbn in Hd. apply andb_true_iff in Hd as [Ha _].
    destruct (digit_not_special a Ha) as (_ & _ & Hb').
    change (strip_prefix (String a id0 +:+ ">") ("!" +:+ x))
      with (if bool_decide (a = "!"%char) then strip_prefix (id0 +:+ ">") x else None).
    rewrite bool_decide_eq_false_2; [reflexivity | exact Hb']. }
  unfold match_mention. rewrite strip_prefix_append.
  destruct Hb as [-> | ->].
  - rewrite append_empty_l, (strip_bang_digits id' (">" +:+ rest) Hd' Hne').
    apply Hno.
  - rewrite strip_prefix_append, Hno. apply Hbang.
Qed.

(** X9: a prefix that starts with a mention of the bot, written [<@id>] or
    [<@!id>] with the id of [me], comes back with [@] and the display name
    of [me] in place of the mention; a backslash in the name comes out as
    it is. *)
Theorem clean_prefix_of_a_mention (s : St) (u : objid) (bang rest : string) :
  bang = "" \/ bang = "!" ->
  prefix (ctx (world s))
  = Some ("<@" +:+ bang +:+ pretty (user_id u) +:+ ">" +:+ rest) ->
  (me s).1 = Ok (PObj u) ->
  no_lt rest = true ->
  (clean_prefix s).1 = Ok ("@" +:+ display_name u +:+ rest).
Proof.
  intros Hb Hp Hme Hlt. rewrite (clean_prefix_run s _ u Hp Hme).
  unfold pattern_sub. f_equal.
  destruct (pretty_N_digits (user_id u)) as [Hd Hne].
  pose proof (match_mention_same bang _ rest Hb Hd Hne) as Hm.
  rewrite mention_shape in Hm |- *.
  rewrite (sub_from_match _ _ _ rest _ Hm).
  rewrite sub_from_no_lt by exact Hlt. apply append_assoc.
Qed.

(** X10: a mention of somebody else than [me] is left as it is. *)
Theorem clean_prefix_of_another_mention (s : St) (u : objid) (n : N)
    (bang rest : string) :
  bang = "" \/ bang = "!" ->
  n <> user_id u ->
  prefix (ctx (world s)) = Some ("<@" +:+ bang +:+ pretty n +:+ ">" +:+ rest) ->
  (me s).1 = Ok (PObj u) ->
  no_lt rest = true ->
  (clean_prefix s).1 = Ok ("<@" +:+ bang +:+ pretty n +:+ ">" +:+ rest).
Proof.
  intros Hb Hn Hp Hme Hlt. rewrite (clean_prefix_run s _ u Hp Hme).
  unfold pattern_sub. f_equal.
  destruct (pretty_N_digits (user_id u)) as [Hd Hne].
  destruct (pretty_N_digits n) as [Hd' Hne'].
  assert (Hdiff : pretty (user_id u) <> pretty n).
  { intros E. apply Hn. symmetry. apply (inj pretty). exact E. }
  pose proof (match_mention_other bang _ _ rest Hb Hd Hne Hd' Hne' Hdiff) as Hm.
  assert (Htail : no_lt ("@" +:+ bang +:+ pretty n +:+ ">" +:+ rest) = true).
  { change ("@" +:+ bang +:+ pretty n +:+ ">" +:+ rest)
      with (String "@" (bang +:+ pretty n +:+ String ">" rest)).
    cbn [no_lt]. rewrite bool_decide_eq_false_2 by discriminate. cbn [negb andb].
    assert (Hn2 : no_lt (pretty n +:+ String ">" rest) = true).
    { apply all_digits_no_lt; [exact Hd'|]. cbn [no_lt].
      rewrite bool_decide_eq_false_2 by discriminate. exact Hlt. }
    destruct Hb as [-> | ->].
    - rewrite append_empty_l. exact Hn2.
    - change ("!" +:+ pretty n +:+ String ">" rest)
        with (String "!" (pretty n +:+ String ">" rest)).
      cbn [no_lt]. rewrite bool_decide_eq_false_2 by discriminate. exact Hn2. }
  change ("<@" +:+ bang +:+ pretty n +:+ ">" +:+ rest)
    with (String "<" ("@" +:+ bang +:+ pretty n +:+ ">" +:+ rest)) in *.
  cbn [sub_from]. rewrite Hm. f_equal.
  apply sub_from_no_lt, Htail.
Qed.

(** ** [send_help] *)

Ltac run_send_help :=
  unfold send_help, resolve_entity, bind, gets, call, modify, ret,
    try_except_CommandError; cbn.

(** X11: without an entity and without a failure, [send_help] makes four
    calls in this order: [copy()] on the help command of the bot, then, on
    the copy, [prepare_help_command(ctx, None)], [get_bot_mapping()] and the
    wrapped [send_bot_help] with that mapping, whose result it returns. *)
Theorem send_help_for_the_bot (s : St) (h c : loc) (w1 w2 w3 w4 : World)
    (mapping v : pyval) :
  help_command (bot (world s)) = Some h ->
  help_copy h (world s) = (Ok c, w1) ->
  prepare_help_command c None (set_hc_context c (self_id (ctx (world s))) w1)
  = (Ok tt, w2) ->
  get_bot_mapping c w2 = (Ok mapping, w3) ->
  injected_send_bot_help c mapping w3 = (Ok v, w4) ->
  send_help [] s
  = (Ok v, {| world := w4;
              trace := trace s ++ [CallHelpCopy h; CallPrepareHelpCommand c None;
                                   CallGetBotMapping c;
                                   CallInjectedSendBotHelp c mapping] |}).
Proof.
  intros Hh Hcopy Hprep Hmap Hinj. run_send_help.
  rewrite Hh, Hcopy. cbn. rewrite Hprep. cbn. rewrite Hmap. cbn. rewrite Hinj. cbn.
  rewrite <- !app_assoc. reflexivity.
Qed.

(** X12: a string is looked up as a cog first and as a command only when
    no cog has that name; from there on [send_help] goes as if the object
    found had been passed. *)
Theorem send_help_by_name (s : St) (h c : loc) (w1 : World) (name : string)
    (o : pyobject) (rest : list entity) :
  help_command (bot (world s)) = Some h ->
  help_copy h (world s) = (Ok c, w1) ->
  let w := set_hc_context c (self_id (ctx (world s))) w1 in
  get_cog w name = Some o \/ (get_cog w name = None /\ get_command w name = Some o) ->
  send_help (EntityStr name :: rest) s = send_help (EntityObj o :: rest) s.
Proof.
  intros Hh Hcopy w Hfound. subst w. run_send_help.
  rewrite Hh, Hcopy. cbn.
  destruct Hfound as [Hcog | [Hcog Hcmd]].
  - rewrite Hcog. reflexivity.
  - rewrite Hcog, Hcmd. reflexivity.
Qed.

(** X13: which renderer an entity goes to.  After [copy()] and
    [prepare_help_command(ctx, entity.qualified_name)], an object with the
    marker [__cog_commands__] goes to [send_cog_help] whatever its class;
    without the marker a [Group] goes to [send_group_help], another
    [Command] to [send_command_help], and anything else gets [None] with no
    renderer called. *)
Theorem send_help_dispatch (s : St) (h c : loc) (w1 w2 : World) (o : pyobject)
    (name : string) (rest : list entity) :
  help_command (bot (world s)) = Some h ->
  help_copy h (world s) = (Ok c, w1) ->
  qualified_name o = Some name ->
  prepare_help_command c (Some name) (set_hc_context c (self_id (ctx (world s))) w1)
  = (Ok tt, w2) ->
  let s2 := {| world := w2;
               trace := trace s ++ [CallHelpCopy h; CallPrepareHelpCommand c (Some name)] |} in
  let guarded (body : M pyval) := try_except_CommandError body (help_error c) s2 in
  send_help (EntityObj o :: rest) s
  = if has_cog_commands o then
      guarded (call (CallInjectedSendCogHelp c o) (injected_send_cog_help c o))
    else match obj_class o with
         | GroupCommand =>
             guarded (call (CallInjectedSendGroupHelp c o) (injected_send_group_help c o))
         | PlainCommand =>
             guarded (call (CallInjectedSendCommandHelp c o) (injected_send_command_help c o))
         | NotCommand => (Ok PNone, s2)
         end.
Proof.
  intros Hh Hcopy Hq Hprep s2 guarded. subst guarded s2.
  unfold send_help, resolve_entity, bind, gets, modify, ret. cbn.
  rewrite Hh. unfold call at 1. rewrite Hcopy. cbn. rewrite Hq.
  unfold call at 1. cbn. rewrite Hprep. cbn.
  rewrite <- !app_assoc. cbn.
  unfold send_entity_help.
  destruct (has_cog_commands o); [reflexivity|].
  destruct (obj_class o); reflexivity.
Qed.

(** X14: an entity that is [None], or an object without [qualified_name],
    gets [None]; by then the help command was copied and the copy was given
    the context, and nothing else is called, not even
    [prepare_help_command]. *)
Theorem send_help_for_a_bad_entity (s : St) (h c : loc) (w1 : World)
    (rest : list entity) :
  help_command (bot (world s)) = Some h ->
  help_copy h (world s) = (Ok c, w1) ->
  let s1 := {| world := set_hc_context c (self_id (ctx (world s))) w1;
               trace := trace s ++ [CallHelpCopy h] |} in
  send_help (EntityNone :: rest) s = (Ok PNone, s1) /\
  (forall o, qualified_name o = None ->
             send_help (EntityObj o :: rest) s = (Ok PNone, s1)) /\
  (is_Some (help_commands w1 !! c) ->
   hc_context <$> help_commands (world s1) !! c = Some (Some (self_id (ctx (world s))))).
Proof.
  intros Hh Hcopy s1. subst s1. split; [|split].
  - run_send_help. rewrite Hh, Hcopy. reflexivity.
  - intros o Hq. run_send_help. rewrite Hh, Hcopy. cbn. rewrite Hq. reflexivity.
  - intros [hc Hc]. cbn. rewrite lookup_alter_eq, Hc. reflexivity.
Qed.

(** X15: what [copy()] or [prepare_help_command] raises is not handled by
    [send_help], a [CommandError] no more than another exception: it leaves
    [send_help], the error callback is not called and no renderer runs. *)
Theorem send_help_does_not_guard_preparation (s : St) (h : loc) (e : exn) :
  help_command (bot (world s)) = Some h ->
  (forall w1 args,
     help_copy h (world s) = (Raise e, w1) ->
     send_help args s
     = (Raise e, {| world := w1; trace := trace s ++ [CallHelpCopy h] |})) /\
  (forall c w1 w2,
     help_copy h (world s) = (Ok c, w1) ->
     prepare_help_command c None (set_hc_context c (self_id (ctx (world s))) w1)
     = (Raise e, w2) ->
     send_help [] s
     = (Raise e, {| world := w2;
                    trace := trace s ++ [CallHelpCopy h;
                                         CallPrepareHelpCommand c None] |})) /\
  (forall c w1 w2 o name rest,
     help_copy h (world s) = (Ok c, w1) ->
     qualified_name o = Some name ->
     prepare_help_command c (Some name) (set_hc_context c (self_id (ctx (world s))) w1)
     = (Raise e, w2) ->
     send_help (EntityObj o :: rest) s
     = (Raise e, {| world := w2;
                    trace := trace s ++ [CallHelpCopy h;
                                         CallPrepareHelpCommand c (Some name)] |})).
Proof.
  intros Hh. split; [|split].
  - intros w1 args Hcopy. run_send_help. rewrite Hh, Hcopy. reflexivity.
  - intros c w1 w2 Hcopy Hprep. run_send_help. rewrite Hh, Hcopy. cbn.
    rewrite Hprep. cbn. rewrite <- !app_assoc. reflexivity.
  - intros c w1 w2 o name rest Hcopy Hq Hprep. run_send_help.
    rewrite Hh, Hcopy. cbn. rewrite Hq. cbn. rewrite Hprep. cbn.
    rewrite <- !app_assoc. reflexivity.
Qed.

(** ** [send] and [reply] *)

Lemma send_plain_eq (content : pyval) (rm : bool) (eph : pyval) (kw : kwargs_t)
    (s : St) :
  plain_condition s ->
  send content rm eph kw s = super_send content kw s.
Proof.
  intros Hp. apply plain_condition_dec in Hp.
  destruct (interaction (ctx (world s))) as [i|] eqn:Hi.
  - rewrite (send_with_interaction _ _ _ _ _ _ Hi), Hp. reflexivity.
  - apply send_without_interaction, Hi.
Qed.

(** X16: outside a live interaction, [return_message] and [ephemeral] are
    ignored: whatever they are, [send] does the same. *)
Theorem send_ignores_flags_on_the_channel (content : pyval) (rm rm' : bool)
    (eph eph' : pyval) (kw : kwargs_t) (s : St) :
  plain_condition s ->
  send content rm eph kw s = send content rm' eph' kw s.
Proof.
  intros Hp. rewrite !(send_plain_eq _ _ _ _ _ Hp). reflexivity.
Qed.

(** X17: when the follow-up needs a [defer] first and [defer] raises, the
    exception leaves [send] and the follow-up is not sent. *)
Theorem send_stops_when_defer_fails (content : pyval) (rm : bool) (eph : pyval)
    (kw : kwargs_t) (s : St) (i : Interaction) (e : exn) (w1 : World) :
  interaction (ctx (world s)) = Some i ->
  session_expired (response i) (clock (world s)) = false ->
  done (response i) = false ->
  rm = true \/ needs_followup (strip_unsupported kw) = true ->
  response_defer eph (world s) = (Raise e, w1) ->
  send content rm eph kw s
  = (Raise e, {| world := w1; trace := trace s ++ [CallResponseDefer eph] |}).
Proof.
  intros Hi Hexp Hd Hf Hdefer.
  rewrite (send_with_interaction _ _ _ _ _ _ Hi), Hexp, Hd.
  assert (Hn : negb (rm || false || needs_followup (strip_unsupported kw)) = false).
  { destruct Hf as [-> | ->]; [reflexivity|].
    rewrite orb_true_r. reflexivity. }
  rewrite Hn. unfold bind, call. rewrite Hdefer. reflexivity.
Qed.

Lemma events_of_send_cases (content : pyval) (rm : bool) (eph : pyval)
    (kw : kwargs_t) (s : St) :
  events_of (send content rm eph kw) s = [CallMessageableSend content kw] \/
  events_of (send content rm eph kw) s
  = [CallResponseSendMessage content eph (strip_unsupported kw)] \/
  events_of (send content rm eph kw) s
  = [CallFollowupSend content eph (strip_unsupported kw)] \/
  events_of (send content rm eph kw) s
  = [CallResponseDefer eph; CallFollowupSend content eph (strip_unsupported kw)] \/
  events_of (send content rm eph kw) s = [CallResponseDefer eph].
Proof.
  destruct (interaction (ctx (world s))) as [i|] eqn:Hi.
  2:{ left. unfold events_of. rewrite (send_without_interaction _ _ _ _ _ Hi).
      apply events_of_call. }
  unfold events_of. rewrite (send_with_interaction _ _ _ _ _ _ Hi).
  destruct (session_expired _ _); [left; apply events_of_call|].
  destruct (negb _); [right; left; apply events_of_call|].
  destruct (done (response i)); [right; right; left; apply events_of_call|].
  right; right; right.
  unfold bind, call.
  destruct (response_defer eph (world s)) as [[[]|e] w1]; cbn.
  - destruct (followup_send content eph (strip_unsupported kw) w1) as [r w2]. cbn.
    left. rewrite <- (app_assoc (trace s)). apply drop_app_length.
  - right. apply drop_app_length.
Qed.

(** X18: the options a transport receives from [send] are the caller's,
    except that [nonce], [stickers], [reference] and [mention_author] may
    have been removed: no other option is ever dropped, added or changed,
    and [send] makes at most one [defer] and one sending call. *)
Theorem send_passes_the_other_options (content : pyval) (rm : bool) (eph : pyval)
    (kw kw' : kwargs_t) (s : St) (ev : event) :
  ev ∈ events_of (send content rm eph kw) s ->
  event_options ev = Some kw' ->
  (kw' = kw \/ kw' = strip_unsupported kw) /\
  (forall k, k <> "nonce" -> k <> "stickers" -> k <> "reference" ->
             k <> "mention_author" -> kw' !! k = kw !! k) /\
  (length (events_of (send content rm eph kw) s) <= 2)%nat.
Proof.
  intros Hev Hopt.
  assert (Hk : kw' = kw \/ kw' = strip_unsupported kw).
  { destruct (events_of_send_cases content rm eph kw s)
      as [E | [E | [E | [E | E]]]]; rewrite E in Hev;
      repeat (apply elem_of_cons in Hev as [-> | Hev]);
      try (apply elem_of_nil in Hev; contradiction);
      cbn in Hopt; try discriminate; injection Hopt as <-; auto. }
  split; [exact Hk|]. split.
  - intros k H1 H2 H3 H4. destruct Hk as [-> | ->]; [reflexivity|].
    rewrite strip_unsupported_lookup.
    rewrite bool_decide_eq_false_2; [reflexivity|]. intuition.
  - destruct (events_of_send_cases content rm eph kw s)
      as [E | [E | [E | [E | E]]]]; rewrite E; cbn; lia.
Qed.

(** X19: [reply] with a [reference] among its options raises [TypeError]
    at once: nothing is sent and the state is as it was. *)
Theorem reply_rejects_a_reference (content : pyval) (rm : bool) (kw : kwargs_t)
    (s : St) (v : pyval) :
  kw !! "reference" = Some v ->
  reply content rm kw s
  = (Raise (TypeError "send() got multiple values for keyword argument 'reference'"), s).
Proof.
  intros Href. unfold reply. rewrite bind_gets.
  rewrite bool_decide_eq_true_2; [reflexivity|]. rewrite Href. eauto.
Qed.

(** X20: on the channel transport, [reply] sends the content with the
    caller's options, to which [reference] is added with the message of the
    context; an [ephemeral] among the options is taken by [send] and does
    not reach the channel. *)
Theorem reply_on_the_channel (content : pyval) (rm : bool) (kw : kwargs_t) (s : St) :
  kw !! "reference" = None ->
  plain_condition s ->
  exists kw',
    events_of (reply content rm kw) s = [CallMessageableSend content kw'] /\
    (reply content rm kw s).1 = (messageable_send content kw' (world s)).1 /\
    kw' !! "reference" = Some (PObj (message (ctx (world s)))) /\
    kw' !! "ephemeral" = None /\
    forall k, k <> "reference" -> k <> "ephemeral" -> kw' !! k = kw !! k.
Proof.
  intros Href Hp.
  exists (<["reference" := PObj (message (ctx (world s)))]> (delete "ephemeral" kw)).
  assert (Hreply : reply content rm kw s
                   = super_send content
                       (<["reference" := PObj (message (ctx (world s)))]>
                          (delete "ephemeral" kw)) s).
  { unfold reply. rewrite bind_gets.
    rewrite bool_decide_eq_false_2 by (rewrite Href; intros [? [=]]).
    apply send_plain_eq, Hp. }
  unfold events_of. rewrite Hreply. unfold super_send.
  split; [apply events_of_call|]. split; [apply call_result|].
  split; [apply lookup_insert_eq|]. split.
  - rewrite lookup_insert_ne by discriminate. apply lookup_delete_eq.
  - intros k H1 H2. rewrite lookup_insert_ne by congruence.
    apply lookup_delete_ne. congruence.
Qed.

(** ** [Context.__init__] *)

(** X21: [invoked_parents or []] in the constructor.  A list that is not
    empty is shared with the caller: the context refers to the very object
    it was given.  Without a list, or with an empty one, the context gets a
    new empty list of its own, another object than any list of the store,
    the empty list it was given included; the lists of the store are as
    they were. *)
Theorem new_context_parents (self message0 : objid) (bot0 : Bot) (view0 : StringView)
    (args0 : option (list pyval)) (kwargs0 : option kwargs_t)
    (prefix0 : option string) (command0 : option Command)
    (invoked_with0 : option string) (invoked_parents0 : option loc)
    (invoked_subcommand0 : option Command) (subcommand_passed0 : option string)
    (command_failed0 : bool) (current_parameter0 : option objid) (w : World) :
  let w' := new_context self message0 bot0 view0 args0 kwargs0 prefix0 command0
              invoked_with0 invoked_parents0 invoked_subcommand0 subcommand_passed0
              command_failed0 current_parameter0 w in
  (forall l x xs,
     invoked_parents0 = Some l -> lists w !! l = Some (x :: xs) ->
     invoked_parents (ctx w') = l /\ lists w' = lists w) /\
  (invoked_parents0 = None \/
   (exists l, invoked_parents0 = Some l /\ lists w !! l = Some []) ->
   lists w !! invoked_parents (ctx w') = None /\
   lists w' !! invoked_parents (ctx w') = Some [] /\
   (forall l, is_Some (lists w !! l) ->
              l <> invoked_parents (ctx w') /\ lists w' !! l = lists w !! l)).
Proof.
  intros w'. subst w'. unfold new_context. split.
  - intros l x xs -> Hl. unfold list_is_truthy. rewrite Hl. cbn. split; reflexivity.
  - intros Hempty.
    assert (Hshared : match invoked_parents0 with
                      | Some l => if list_is_truthy w l then Some l else None
                      | None => None
                      end = None).
    { destruct Hempty as [-> | (l & -> & Hl)]; [reflexivity|].
      unfold list_is_truthy. rewrite Hl. reflexivity. }
    rewrite Hshared. cbn [ctx invoked_parents lists].
    assert (Hfresh : lists w !! new_list w = None).
    { apply not_elem_of_dom. unfold new_list. apply is_fresh. }
    split; [exact Hfresh|]. split; [apply lookup_insert_eq|].
    intros l [x Hl].
    assert (Hne : l <> new_list w) by (intros ->; congruence).
    split; [exact Hne|]. apply lookup_insert_ne. congruence.
Qed.

(** X22: a context as the constructor builds it has no interaction and
    nothing stored: [send] from it goes to the channel whatever the flags,
    and the first read of [guild] gives the guild of the message. *)
Theorem new_context_sends_on_the_channel (self message0 : objid) (bot0 : Bot)
    (view0 : StringView) (args0 : option (list pyval)) (kwargs0 : option kwargs_t)
    (prefix0 : option string) (command0 : option Command)
    (invoked_with0 : option string) (invoked_parents0 : option loc)
    (invoked_subcommand0 : option Command) (subcommand_passed0 : option string)
    (command_failed0 : bool) (current_parameter0 : option objid) (w : World)
    (t : list event) (content : pyval) (rm : bool) (eph : pyval) (kw : kwargs_t) :
  let s := {| world := new_context self message0 bot0 view0 args0 kwargs0 prefix0
                         command0 invoked_with0 invoked_parents0 invoked_subcommand0
                         subcommand_passed0 command_failed0 current_parameter0 w;
              trace := t |} in
  send content rm eph kw s
  = call (CallMessageableSend content kw) (messageable_send content kw) s /\
  (guild s).1 = Ok (msg_guild (msg w)) /\
  (valid s).1 = Ok (bool_decide (prefix0 <> None) && bool_decide (command0 <> None)).
Proof.
  intros s. split; [|split].
  - apply send_without_interaction. reflexivity.
  - unfold guild. rewrite cached_property_first by reflexivity. reflexivity.
  - reflexivity.
Qed.

(** ** [send_help] and the errors of the renderer *)













End MoreProperties.

(** * The operations on the concrete collaborators *)

#[local] Existing Instance Demo.collaborators.

Lemma reinvoke_reverts_fields_witness :
  let s := Demo.plain_state (Some 13%positive) in
  let s' := (reinvoke true false s).2 in
  (reinvoke true false s).1 = Raise (CommandError 13%positive) /\
  command (ctx (world s')) = Some 13%positive /\
  invoked_with (ctx (world s')) = Some "sub" /\
  invoked_subcommand (ctx (world s')) = None /\
  invoked_parents (ctx (world s')) = 1%positive /\
  subcommand_passed (ctx (world s')) = None /\
  index (view (world s')) = 8 /\
  previous (view (world s')) = 5.
Proof.
  exact (reinvoke_reverts_fields true false (Demo.plain_state (Some 13%positive))
           13%positive eq_refl).
Defined.

(** C2: the claim does not hold of [invoked_parents] by value.  The context
    of [?grp sub arg] has the parents [grp]; its command works like a group,
    whose [reinvoke] appends the invoking name to [ctx.invoked_parents] in
    place.  After [reinvoke(restart=False)], which returns normally, the
    scalar fields and the cursor are back and [invoked_parents] refers to
    the list it referred to before, but this list now holds [grp; sub]:
    the snapshot of [reinvoke] keeps the list object, not what it held.
    With [restart=True] the command is given a new list, and the list of
    before the call still holds [grp] afterwards. *)
Example resume_keeps_the_appended_parent :
  let s := Demo.plain_state (Some 11%positive) in
  let s' := (reinvoke false false s).2 in
  let r' := (reinvoke false true s).2 in
  (reinvoke false false s).1 = Ok tt /\
  command (ctx (world s')) = command (ctx (world s)) /\
  invoked_with (ctx (world s')) = invoked_with (ctx (world s)) /\
  invoked_subcommand (ctx (world s')) = invoked_subcommand (ctx (world s)) /\
  subcommand_passed (ctx (world s')) = subcommand_passed (ctx (world s)) /\
  view (world s') = view (world s) /\
  invoked_parents (ctx (world s')) = invoked_parents (ctx (world s)) /\
  lists (world s) !! invoked_parents (ctx (world s)) = Some ["grp"] /\
  lists (world s') !! invoked_parents (ctx (world s')) = Some ["grp"; "sub"] /\
  invoked_parents (ctx (world r')) = invoked_parents (ctx (world s)) /\
  lists (world r') !! invoked_parents (ctx (world r')) = Some ["grp"].
Proof. vm_compute. repeat split. Qed.

Lemma reinvoke_restart_from_root_witness :
  let s := Demo.plain_state (Some 11%positive) in
  events_of (reinvoke false true) s = [CallCommandReinvoke 10%positive false] /\
  view (restart_world (world s))
  = {| index := 4; previous := 1; buffer := "?grp sub arg" |} /\
  invoked_with (ctx (restart_world (world s))) = Some "grp" /\
  lists (restart_world (world s)) !! invoked_parents (ctx (restart_world (world s)))
  = Some [].
Proof.
  intros s.
  destruct (reinvoke_restart_from_root false s 11%positive eq_refl)
    as (Hev & _ & _ & Hview & Hwith & Hnew & _).
  split; [exact Hev|]. split; [exact Hview|]. split; [exact Hwith|]. exact Hnew.
Defined.

Lemma reinvoke_without_command_witness :
  reinvoke true true (Demo.plain_state None)
  = (Raise (ValueError "This context is not valid."), Demo.plain_state None).
Proof.
  exact (reinvoke_without_command true true (Demo.plain_state None) eq_refl).
Defined.

(** The guild is read, the message then moves to another guild, channel and
    author: the context still answers with the guild it read first. *)
Example guild_ignores_a_later_message_state :
  let s := Demo.plain_state (Some 11%positive) in
  let s1 := (guild s).2 in
  let later := {| msg_guild := None; msg_channel := 50%positive;
                  msg_author := 60%positive |} in
  let s2 := {| world := set_msg later (world s1); trace := trace s1 |} in
  (guild s).1 = Ok (Some 4%positive) /\
  guild s2 = (Ok (Some 4%positive), s2) /\
  (me s2).1 = Ok (PObj 7%positive).
Proof. vm_compute. repeat split. Qed.

(** The first response was recorded 16 minutes ago. *)
Lemma send_plain_transport_witness :
  let s := Demo.slash_state (Some 0) true 960000000 in
  send (PStr "hi") false (PBool false) {[ "nonce" := PInt 1 ]} s
  = call (CallMessageableSend (PStr "hi") {[ "nonce" := PInt 1 ]})
         (messageable_send (PStr "hi") {[ "nonce" := PInt 1 ]}) s.
Proof.
  intros s.
  apply (proj1 (send_plain_transport (PStr "hi") false (PBool false)
                  {[ "nonce" := PInt 1 ]} s)).
  right. exists (Demo.an_interaction (Some 0) true), 0.
  split; [reflexivity|]. split; [reflexivity|]. vm_compute. discriminate.
Defined.

(** The first response was recorded exactly 15 minutes ago: the message goes
    to the channel, not to the interaction. *)
Lemma send_at_fifteen_minutes_is_plain :
  let s := Demo.slash_state (Some 0) true (15 * 60 * 1000000) in
  events_of (send (PStr "hi") true (PBool false) ∅) s
  = [CallMessageableSend (PStr "hi") ∅] /\
  (send (PStr "hi") true (PBool false) ∅ s).1 = Ok (PObj 100%positive).
Proof. vm_compute. split; reflexivity. Qed.

Lemma send_interactive_path_witness :
  let s := Demo.slash_state None false 0 in
  send (PStr "hi") false (PBool true) {[ "nonce" := PInt 1 ]} s
  = call (CallResponseSendMessage (PStr "hi") (PBool true)
            (strip_unsupported {[ "nonce" := PInt 1 ]}))
         (response_send_message (PStr "hi") (PBool true)
            (strip_unsupported {[ "nonce" := PInt 1 ]})) s.
Proof.
  intros s.
  apply (proj1 (proj2 (send_interactive_path (PStr "hi") false (PBool true)
                         {[ "nonce" := PInt 1 ]} s
                         (Demo.an_interaction None false) eq_refl eq_refl))).
  repeat split; reflexivity.
Defined.

Lemma reply_is_send_with_reference_witness :
  let s := Demo.plain_state (Some 11%positive) in
  reply (PStr "hi") true {[ "ephemeral" := PBool true ]} s
  = send (PStr "hi") true (PBool true) {[ "reference" := PObj 2%positive ]} s.
Proof.
  intros s.
  assert (Href : ({[ "ephemeral" := PBool true ]} : kwargs_t) !! "reference" = None)
    by (vm_compute; reflexivity).
  rewrite (proj1 (reply_is_send_with_reference (PStr "hi") true
                    {[ "ephemeral" := PBool true ]} s Href)).
  vm_compute. reflexivity.
Defined.

(** [reply] with a [reference] of its own: the call of [send] is rejected,
    where [send] with the two references merged goes through. *)
Lemma reply_with_reference_raises :
  let s := Demo.plain_state (Some 11%positive) in
  let kw : kwargs_t := {[ "reference" := PObj 9%positive ]} in
  reply (PStr "hi") true kw s
  = (Raise (TypeError "send() got multiple values for keyword argument 'reference'"), s) /\
  (send (PStr "hi") true (PBool false) (<["reference" := PObj 2%positive]> kw) s).1
  = Ok (PObj 100%positive) /\
  reply (PStr "hi") true kw s
  <> send (PStr "hi") true (PBool false) (<["reference" := PObj 2%positive]> kw) s.
Proof.
  vm_compute. split; [reflexivity|]. split; [reflexivity|]. discriminate.
Qed.



Lemma demo_collaborators_keep (h : loc) : HelpCollaboratorsKeep h.
Proof.
  assert (Hid : forall A (r : result A),
             keeps_help_command h (fun w => (r, w))).
  { intros A r w Hw. split; [exact Hw | reflexivity]. }
  split; try (intros; apply Hid).
  - intros w Hw. split; [exact Hw|]. cbn.
    apply lookup_insert_ne.
    pose proof (is_fresh ({[h]} ∪ dom (help_commands w))) as Hf.
    intros E. apply Hf. rewrite E. set_solver.
  - intros w c w' [= <- _].
    pose proof (is_fresh ({[h]} ∪ dom (help_commands w))) as Hf.
    intros E. apply Hf. rewrite E. set_solver.
Qed.

Lemma send_help_keeps_help_command_witness :
  let s := Demo.plain_state (Some 11%positive) in
  let s' := (send_help [EntityStr "ping"] s).2 in
  help_command (bot (world s')) = Some 1%positive /\
  help_commands (world s') !! 1%positive
  = Some {| hc_context := None; hc_attrs := ∅ |}.
Proof.
  intros s s'.
  destruct (send_help_keeps_help_command [EntityStr "ping"] s
              (fun h _ => demo_collaborators_keep h)) as [Hb Ho].
  split; [exact Hb|].
  exact (proj1 (Ho 1%positive eq_refl)).
Defined.

(** * The further properties on the concrete collaborators *)

#[local] Existing Instance Demo.attributes.

Lemma reinvoke_resumes_in_place_witness :
  let s := Demo.plain_state (Some 11%positive) in
  events_of (reinvoke true false) s = [CallCommandReinvoke 11%positive true] /\
  (reinvoke true false s).1 = Ok tt.
Proof.
  intros s.
  destruct (reinvoke_resumes_in_place true s 11%positive eq_refl) as (Hev & Hr & _).
  split; [exact Hev | exact Hr].
Defined.

(** The group-like command left [command_failed] as it was and put a word
    in the list of parents; the cursor it moved is put back, the rest
    stays. *)
Lemma reinvoke_keeps_what_the_command_left_witness :
  let s := Demo.plain_state (Some 11%positive) in
  let w' := world (reinvoke false false s).2 in
  command_failed (ctx w') = true /\
  lists w' !! 1%positive = Some ["grp"; "sub"] /\
  buffer (view w') = "?grp sub arg".
Proof.
  intros s w'.
  pose proof (reinvoke_keeps_what_the_command_left false false s 11%positive eq_refl)
    as P.
  cbv zeta in P. destruct P as (_ & _ & Hcf & _ & _ & _ & _ & _ & _ & _ & Hbuf & Hl & _).
  split; [exact Hcf|]. split; [|exact Hbuf].
  unfold w'. rewrite Hl. vm_compute. reflexivity.
Defined.

Lemma reinvoke_restart_without_prefix_witness :
  exists w_in,
    (reinvoke false true (Demo.built_state None None)).1
    = (command_reinvoke (root_or_self 11%positive) false w_in).1 /\
    view w_in = {| index := 4; previous := 0; buffer := "help me" |} /\
    invoked_with (ctx w_in) = Some "help".
Proof.
  exact (reinvoke_restart_without_prefix false (Demo.built_state None None)
           11%positive eq_refl (or_introl eq_refl)).
Defined.

Lemma me_stores_guild_witness :
  let s := Demo.plain_state (Some 11%positive) in
  guild (me s).2 = (Ok (Some 4%positive), (me s).2) /\
  (me s).1 = Ok (PObj 7%positive).
Proof.
  exact (me_stores_guild (Demo.plain_state (Some 11%positive)) eq_refl).
Defined.

Lemma clean_prefix_reads_me_witness :
  clean_prefix (Demo.built_state None None) = (Ok "", Demo.built_state None None) /\
  me_attr (ctx (world (clean_prefix (Demo.plain_state None)).2)) <> None.
Proof.
  split.
  - apply (proj1 (clean_prefix_reads_me (Demo.built_state None None))). reflexivity.
  - apply (proj1 (proj2 (clean_prefix_reads_me (Demo.plain_state None)))).
    discriminate.
Defined.

Lemma clean_prefix_of_plain_text_witness :
  (clean_prefix (Demo.plain_state None)).1 = Ok "?".
Proof.
  apply (clean_prefix_of_plain_text (Demo.plain_state None) "?" 7%positive);
    vm_compute; reflexivity.
Defined.

Lemma clean_prefix_of_a_mention_witness :
  (clean_prefix Demo.mention_state).1 = Ok "@Rob\ot ".
Proof.
  rewrite (clean_prefix_of_a_mention Demo.mention_state 7%positive "!" " ").
  - vm_compute. reflexivity.
  - right. reflexivity.
  - vm_compute. reflexivity.
  - vm_compute. reflexivity.
  - vm_compute. reflexivity.
Defined.

Lemma clean_prefix_of_another_mention_witness :
  (clean_prefix (Demo.built_state (Some "<@123> ") None)).1 = Ok "<@123> ".
Proof.
  rewrite (clean_prefix_of_another_mention (Demo.built_state (Some "<@123> ") None)
             7%positive 123%N "" " ").
  - vm_compute. reflexivity.
  - left. reflexivity.
  - vm_compute. discriminate.
  - vm_compute. reflexivity.
  - vm_compute. reflexivity.
  - vm_compute. reflexivity.
Defined.

Lemma send_help_for_the_bot_witness :
  (send_help [] (Demo.plain_state None)).1 = Ok (PObj 201%positive) /\
  events_of (send_help []) (Demo.plain_state None)
  = [CallHelpCopy 1%positive; CallPrepareHelpCommand 2%positive None;
     CallGetBotMapping 2%positive;
     CallInjectedSendBotHelp 2%positive (PObj 200%positive)].
Proof.
  set (s := Demo.plain_state None).
  set (w1 := (help_copy 1%positive (world s)).2).
  set (w2 := set_hc_context 2%positive (self_id (ctx (world s))) w1).
  assert (Hcopy : help_copy 1%positive (world s) = (Ok 2%positive, w1))
    by (vm_compute; reflexivity).
  pose proof (send_help_for_the_bot s 1%positive 2%positive w1 w2 w2 w2
                (PObj 200%positive) (PObj 201%positive)
                eq_refl Hcopy eq_refl eq_refl eq_refl) as E.
  unfold events_of. rewrite E. vm_compute. split; reflexivity.
Defined.

Lemma send_help_by_name_witness :
  send_help [EntityStr "ping"] (Demo.plain_state None)
  = send_help [EntityObj Demo.ping_command] (Demo.plain_state None) /\
  send_help [EntityStr "Admin"] (Demo.plain_state None)
  = send_help [EntityObj Demo.admin_cog] (Demo.plain_state None).
Proof.
  assert (Hcopy : help_copy 1%positive (world (Demo.plain_state None))
                  = (Ok 2%positive,
                     (help_copy 1%positive (world (Demo.plain_state None))).2))
    by (vm_compute; reflexivity).
  split.
  - apply (send_help_by_name (Demo.plain_state None) 1%positive 2%positive _
             "ping" Demo.ping_command [] eq_refl Hcopy).
    right. split; reflexivity.
  - apply (send_help_by_name (Demo.plain_state None) 1%positive 2%positive _
             "Admin" Demo.admin_cog [] eq_refl Hcopy).
    left. reflexivity.
Defined.

Lemma send_help_dispatch_witness :
  (send_help [EntityObj Demo.admin_cog] (Demo.plain_state None)).1
  = Ok (PObj 202%positive).
Proof.
  set (s := Demo.plain_state None).
  set (w1 := (help_copy 1%positive (world s)).2).
  set (w2 := (prepare_help_command 2%positive (Some "Admin")
                (set_hc_context 2%positive (self_id (ctx (world s))) w1)).2).
  assert (Hcopy : help_copy 1%positive (world s) = (Ok 2%positive, w1))
    by (vm_compute; reflexivity).
  assert (Hprep : prepare_help_command 2%positive (Some "Admin")
                    (set_hc_context 2%positive (self_id (ctx (world s))) w1)
                  = (Ok tt, w2))
    by (vm_compute; reflexivity).
  rewrite (send_help_dispatch s 1%positive 2%positive w1 w2 Demo.admin_cog "Admin" []
             eq_refl Hcopy eq_refl Hprep).
  vm_compute. reflexivity.
Defined.

Lemma send_help_for_a_bad_entity_witness :
  (send_help [EntityNone] (Demo.plain_state None)).1 = Ok PNone /\
  events_of (send_help [EntityNone]) (Demo.plain_state None) = [CallHelpCopy 1%positive].
Proof.
  set (s := Demo.plain_state None).
  assert (Hcopy : help_copy 1%positive (world s)
                  = (Ok 2%positive, (help_copy 1%positive (world s)).2))
    by (vm_compute; reflexivity).
  pose proof (proj1 (send_help_for_a_bad_entity s 1%positive 2%positive _ []
                       eq_refl Hcopy)) as E.
  unfold events_of. rewrite E. vm_compute. split; reflexivity.
Defined.

(** [prepare_help_command] raises a [CommandError]: it leaves [send_help]
    and the error callback is not called. *)
Lemma send_help_does_not_guard_preparation_witness :
  (@send_help Demo.failing_collaborators [] (Demo.plain_state None)).1
  = Raise (CommandError 302%positive) /\
  events_of (@send_help Demo.failing_collaborators []) (Demo.plain_state None)
  = [CallHelpCopy 1%positive; CallPrepareHelpCommand 2%positive None].
Proof.
  set (s := Demo.plain_state None).
  set (w1 := (@help_copy Demo.failing_collaborators 1%positive (world s)).2).
  assert (Hcopy : @help_copy Demo.failing_collaborators 1%positive (world s)
                  = (Ok 2%positive, w1))
    by (vm_compute; reflexivity).
  assert (Hprep : @prepare_help_command Demo.failing_collaborators 2%positive None
                    (set_hc_context 2%positive (self_id (ctx (world s))) w1)
                  = (Raise (CommandError 302%positive),
                     set_hc_context 2%positive (self_id (ctx (world s))) w1))
    by reflexivity.
  pose proof (proj1 (proj2 (@send_help_does_not_guard_preparation
                              Demo.failing_collaborators s
                              1%positive (CommandError 302%positive) eq_refl))
                2%positive w1 _ Hcopy Hprep) as E.
  unfold events_of. rewrite E. vm_compute. split; reflexivity.
Defined.

Lemma send_ignores_flags_on_the_channel_witness :
  send (PStr "hi") true (PBool true) ∅ (Demo.plain_state None)
  = send (PStr "hi") false PNone ∅ (Demo.plain_state None).
Proof.
  apply send_ignores_flags_on_the_channel. left. reflexivity.
Defined.

Lemma send_stops_when_defer_fails_witness :
  let s := Demo.slash_state None false 0 in
  @send Demo.failing_collaborators (PStr "hi") true PNone ∅ s
  = (Raise (OtherError 303%positive),
     {| world := world s; trace := [CallResponseDefer PNone] |}).
Proof.
  exact (@send_stops_when_defer_fails Demo.failing_collaborators (PStr "hi") true
           PNone ∅ (Demo.slash_state None false 0) (Demo.an_interaction None false)
           (OtherError 303%positive) _ eq_refl eq_refl eq_refl (or_introl eq_refl)
           eq_refl).
Defined.

Lemma send_passes_the_other_options_witness :
  let kw : kwargs_t := {[ "nonce" := PInt 1; "embed" := PObj 9%positive ]} in
  let kw' := strip_unsupported kw in
  (kw' = kw \/ kw' = strip_unsupported kw) /\
  kw' !! "embed" = Some (PObj 9%positive).
Proof.
  intros kw kw'.
  assert (Hev : CallFollowupSend (PStr "hi") PNone kw'
                ∈ events_of (send (PStr "hi") true PNone kw)
                            (Demo.slash_state None false 0)).
  { assert (E : events_of (send (PStr "hi") true PNone kw)
                          (Demo.slash_state None false 0)
                = [CallResponseDefer PNone; CallFollowupSend (PStr "hi") PNone kw'])
      by (vm_compute; reflexivity).
    rewrite E. apply elem_of_cons. right. apply elem_of_cons. left. reflexivity. }
  destruct (send_passes_the_other_options (PStr "hi") true PNone kw kw'
              (Demo.slash_state None false 0) _ Hev eq_refl) as (Hk & Hother & _).
  split; [exact Hk|].
  rewrite (Hother "embed") by discriminate. vm_compute. reflexivity.
Defined.

Lemma reply_rejects_a_reference_witness :
  (reply (PStr "hi") true {[ "reference" := PObj 9%positive ]}
         (Demo.plain_state None)).1
  = Raise (TypeError "send() got multiple values for keyword argument 'reference'").
Proof.
  rewrite (reply_rejects_a_reference (PStr "hi") true
             {[ "reference" := PObj 9%positive ]} (Demo.plain_state None)
             (PObj 9%positive)) by (vm_compute; reflexivity).
  reflexivity.
Defined.

Lemma reply_on_the_channel_witness :
  exists kw',
    events_of (reply (PStr "hi") true {[ "ephemeral" := PBool true ]})
              (Demo.plain_state None)
    = [CallMessageableSend (PStr "hi") kw'] /\
    kw' !! "reference" = Some (PObj 2%positive) /\
    kw' !! "ephemeral" = None.
Proof.
  assert (Href : ({[ "ephemeral" := PBool true ]} : kwargs_t) !! "reference" = None)
    by (vm_compute; reflexivity).
  destruct (reply_on_the_channel (PStr "hi") true {[ "ephemeral" := PBool true ]}
              (Demo.plain_state None) Href (or_introl eq_refl))
    as (kw' & Hev & _ & Hr & He & _).
  exists kw'. split; [exact Hev|]. split; [exact Hr | exact He].
Defined.

(** The constructor is given the list 1, which holds [grp]: it is shared.
    Given no list, the context gets the new list 2. *)
Lemma new_context_parents_witness :
  invoked_parents (ctx (world (Demo.built_state None (Some 1%positive)))) = 1%positive /\
  lists (world (Demo.built_state None None))
    !! invoked_parents (ctx (world (Demo.built_state None None))) = Some [].
Proof.
  split.
  - apply (proj1 (new_context_parents 1%positive 2%positive
                    {| user := PObj 3%positive; help_command := Some 1%positive |}
                    {| index := 0; previous := 0; buffer := "help me" |}
                    None None None (Some 11%positive) (Some "help") (Some 1%positive)
                    None None false None (Demo.a_world None None 0))
                 1%positive "grp" [] eq_refl).
    vm_compute. reflexivity.
  - apply (proj2 (new_context_parents 1%positive 2%positive
                    {| user := PObj 3%positive; help_command := Some 1%positive |}
                    {| index := 0; previous := 0; buffer := "help me" |}
                    None None None (Some 11%positive) (Some "help") None
                    None None false None (Demo.a_world None None 0))).
    left. reflexivity.
Defined.
